(** * Debug widget: capture, channel and interaction flow

    A shallow embedding of the client-side core of the debug widget:

    - [ConsoleCapture] (src/capture/console-capture.ts): the console
      interceptor and its bounded log buffer;
    - [WebSocketClient] (src/api/websocket.ts): the reconnecting duplex
      channel;
    - [APIClient] (src/api/client.ts): the two outbound requests;
    - [Widget] (src/widget/Widget.tsx): the handlers of the interaction
      controller.

    JavaScript arrays are objects with identity: they live in a heap and
    are named by a location, so that a copy and a live reference can be
    told apart.  Asynchronous handlers are split at their [await]: the part
    run before the suspension and the part run when the promise settles. *)

From Stdlib Require Import ZArith Ascii String List Bool Lia.
From stdpp Require Import base option list gmap strings pretty.

Local Open Scope string_scope.
Local Open Scope Z_scope.
Local Open Scope list_scope.

(** ** JavaScript values, as far as the widget looks at them *)

Module Js.

(** The outcome of [JSON.stringify(arg)]: a text, [undefined] (a [toJSON]
    that yields nothing) or an exception (a cyclic structure). *)
Inductive Stringified :=
| JsonText (s : string)
| JsonUndefined
| JsonThrows.

(** What the capture looks at in a value whose [typeof] is ['object']
    ([null] included): the outcome of [JSON.stringify], the text of
    [String(arg)], and, for an instance of [Error], its [stack] property,
    which may be [undefined]. *)
Record Object := {
  o_json : Stringified;
  o_string : string;
  o_error : option (option string)
}.

(** An argument handed to a console function: a string, another
    primitive given by the text of [String(arg)], or an object. *)
Inductive Value :=
| VString (s : string)
| VPrimitive (str : string)
| VObject (o : Object).

(** [typeof arg === 'object'], with the object at hand if so *)
Definition typeof_object (v : Value) : option Object :=
  match v with
  | VString _ | VPrimitive _ => None
  | VObject o => Some o
  end.

(** [String(arg)] *)
Definition String_ (v : Value) : string :=
  match v with
  | VString s => s
  | VPrimitive s => s
  | VObject o => o_string o
  end.

(** [JSON.stringify(arg)] on an object *)
Definition JSON_stringify (o : Object) : Stringified := o_json o.

(** [arg instanceof Error], together with [arg.stack] if so *)
Definition error_stack (v : Value) : option (option string) :=
  match v with
  | VObject o => o_error o
  | _ => None
  end.

(** [Array.prototype.join]: an [undefined] element is rendered as the
    empty string. *)
Definition join_elt (x : option string) : string :=
  match x with Some s => s | None => "" end.

Fixpoint join (sep : string) (xs : list (option string)) : string :=
  match xs with
  | [] => ""
  | [x] => join_elt x
  | x :: rest => join_elt x +:+ sep +:+ join sep rest
  end.

(** A thrown value: an [Error] with its [name] and [message]. *)
Record Thrown := { thrown_name : string; thrown_message : string }.

(** [Error.prototype.toString], which a template literal applies. *)
Definition Thrown_toString (e : Thrown) : string :=
  if String.eqb (thrown_name e) "" then thrown_message e
  else if String.eqb (thrown_message e) "" then thrown_name e
  else thrown_name e +:+ ": " +:+ thrown_message e.

(** The truth value of a [string | null] in a condition. *)
Definition truthy_string (s : option string) : bool :=
  match s with
  | None => false
  | Some s => negb (String.eqb s "")
  end.

End Js.

(** ** src/capture/console-capture.ts *)

Module ConsoleCapture.

Inductive Level := log | warn | error.

(** [LogEntry] of src/types. [stack] is absent unless [captureLog] sets
    it, and it may then still be [undefined]. *)
Record LogEntry := {
  level : Level;
  message : string;
  timestamp : Z;
  stack : option string
}.

(** Function values have identity.  A function that exists before the
    capture does is either the native channel or some patch installed by
    the host page. *)
Inductive HostFn :=
| Native (l : Level)
| Patched (id : nat).

(** A function found in a slot of the global [console]: a host function,
    or one of the arrow functions that [start()] creates; [id] is the
    identity of the closure, [l] the level it passes to [captureLog]. *)
Inductive ConsoleFn :=
| Host (f : HostFn)
| Wrapper (id : nat) (l : Level).

Record Slots (F : Type) := { s_log : F; s_warn : F; s_error : F }.
Arguments s_log {F} _.
Arguments s_warn {F} _.
Arguments s_error {F} _.

Definition slot {F} (l : Level) (c : Slots F) : F :=
  match l with
  | log => s_log c
  | warn => s_warn c
  | error => s_error c
  end.

Definition lift (c : Slots HostFn) : Slots ConsoleFn :=
  {| s_log := Host (s_log c); s_warn := Host (s_warn c);
     s_error := Host (s_error c) |}.

(** The native console. *)
Definition native : Slots HostFn :=
  {| s_log := Native log; s_warn := Native warn; s_error := Native error |}.

Definition loc := nat.

(** What is outside the capture object: the global [console], the heap of
    arrays, the allocation counters, and the calls that reached a host
    function, oldest first. *)
Record World := {
  console : Slots ConsoleFn;
  heap : gmap loc (list LogEntry);
  next_loc : loc;
  next_closure : nat;
  forwarded : list (HostFn * list Js.Value)
}.

(** The fields of a [ConsoleCapture] instance. [logs] is a reference. *)
Record Instance := {
  logs : loc;
  maxEntries : Z;
  originalConsole : Slots HostFn
}.

(** A page in which no capture exists yet. *)
Definition page (c : Slots HostFn) : World :=
  {| console := lift c; heap := ∅; next_loc := 0%nat; next_closure := 0%nat;
     forwarded := [] |}.

Definition alloc (xs : list LogEntry) (w : World) : loc * World :=
  (next_loc w,
   {| console := console w;
      heap := <[next_loc w := xs]> (heap w);
      next_loc := S (next_loc w);
      next_closure := next_closure w;
      forwarded := forwarded w |}).

Definition store (a : loc) (xs : list LogEntry) (w : World) : World :=
  {| console := console w;
     heap := <[a := xs]> (heap w);
     next_loc := next_loc w;
     next_closure := next_closure w;
     forwarded := forwarded w |}.

Definition set_console (c : Slots ConsoleFn) (w : World) : World :=
  {| console := c; heap := heap w; next_loc := next_loc w;
     next_closure := next_closure w; forwarded := forwarded w |}.

Definition forward (f : HostFn) (args : list Js.Value) (w : World) : World :=
  {| console := console w; heap := heap w; next_loc := next_loc w;
     next_closure := next_closure w;
     forwarded := forwarded w ++ [(f, args)] |}.

(** [constructor(maxEntries = 1000)], with the field initialisers: the
    default applies when the argument is [undefined].  The instance is
    built in a page whose console holds the functions [c], which is what
    the initialiser of [originalConsole] reads. *)
Definition new (arg : option Z) (c : Slots HostFn) : Instance * World :=
  let (a, w') := alloc [] (page c) in
  ({| logs := a;
      maxEntries := match arg with Some n => n | None => 1000 end;
      originalConsole := c |}, w').

(** [start()]: three fresh closures. *)
Definition start (w : World) : World :=
  let n := next_closure w in
  {| console := {| s_log := Wrapper n log;
                   s_warn := Wrapper (S n) warn;
                   s_error := Wrapper (S (S n)) error |};
     heap := heap w; next_loc := next_loc w;
     next_closure := S (S (S n));
     forwarded := forwarded w |}.

(** [stop()] *)
Definition stop (this : Instance) (w : World) : World :=
  set_console (lift (originalConsole this)) w.

(** The callback of [args.map] in [captureLog]. *)
Definition render (arg : Js.Value) : option string :=
  match Js.typeof_object arg with
  | Some o =>
      match Js.JSON_stringify o with
      | Js.JsonText s => Some s
      | Js.JsonUndefined => None
      | Js.JsonThrows => Some (Js.String_ arg)
      end
  | None => Some (Js.String_ arg)
  end.

Definition make_entry (l : Level) (args : list Js.Value) (now : Z)
  : LogEntry :=
  {| level := l;
     message := Js.join " " (map render args);
     timestamp := now;
     stack := match l, args with
              | error, a :: _ =>
                  match Js.error_stack a with
                  | Some st => st
                  | None => None
                  end
              | _, _ => None
              end |}.

(** [Array.prototype.shift]: nothing happens on an empty array. *)
Definition shift (xs : list LogEntry) : list LogEntry := tail xs.

(** The last two statements of [captureLog] on the array that holds
    [xs]: [push(entry)], then one [shift()] if the length exceeds the
    limit. *)
Definition pushed (max : Z) (xs : list LogEntry) (e : LogEntry)
  : list LogEntry :=
  if Z.of_nat (length (xs ++ [e])) >? max then shift (xs ++ [e])
  else xs ++ [e].

(** [captureLog(level, args)]; [now] is what [Date.now()] returns.  [None]
    when [this.logs] names no array. *)
Definition captureLog (this : Instance) (l : Level) (args : list Js.Value)
    (now : Z) (w : World) : option World :=
  xs ← heap w !! logs this;
  Some (store (logs this)
          (pushed (maxEntries this) xs (make_entry l args now)) w).

(** [getLogs()]: the spread builds a new array. *)
Definition getLogs (this : Instance) (w : World) : option (loc * World) :=
  xs ← heap w !! logs this;
  Some (alloc xs w).

(** [clear()] *)
Definition clear (this : Instance) (w : World) : Instance * World :=
  let (a, w') := alloc [] w in
  ({| logs := a; maxEntries := maxEntries this;
      originalConsole := originalConsole this |}, w').

(** The page calls [console[l](...args)] at time [now]. *)
Definition call (this : Instance) (l : Level) (args : list Js.Value)
    (now : Z) (w : World) : option World :=
  match slot l (console w) with
  | Host f => Some (forward f args w)
  | Wrapper _ l' =>
      w' ← captureLog this l' args now w;
      Some (forward (slot l' (originalConsole this)) args w')
  end.

(** One console call: the channel, the arguments, the clock. *)
Record Call := { c_level : Level; c_args : list Js.Value; c_now : Z }.

Definition entry_of (c : Call) : LogEntry :=
  make_entry (c_level c) (c_args c) (c_now c).

Fixpoint calls (this : Instance) (cs : list Call) (w : World)
  : option World :=
  match cs with
  | [] => Some w
  | c :: rest =>
      w' ← call this (c_level c) (c_args c) (c_now c) w;
      calls this rest w'
  end.

(** The content of the array behind a reference. *)
Definition read (a : loc) (w : World) : option (list LogEntry) :=
  heap w !! a.

(** The last [n] elements of a list; none for [n <= 0]. *)
Definition lastn {A} (n : Z) (xs : list A) : list A :=
  drop (length xs - Z.to_nat n) xs.

(** What the page and the widget may do with a capture once it is
    built. *)
Inductive Op :=
| Start
| Stop
| Clear
| GetLogs
| Invoke (c : Call).

Definition run_op (op : Op) (st : Instance * World)
  : option (Instance * World) :=
  let (this, w) := st in
  match op with
  | Start => Some (this, start w)
  | Stop => Some (this, stop this w)
  | Clear => Some (clear this w)
  | GetLogs => '(_, w') ← getLogs this w; Some (this, w')
  | Invoke c => w' ← call this (c_level c) (c_args c) (c_now c) w; Some (this, w')
  end.

Fixpoint run (ops : list Op) (st : Instance * World)
  : option (Instance * World) :=
  match ops with
  | [] => Some st
  | op :: rest => st' ← run_op op st; run rest st'
  end.

(** The calls [console.log(s)], [console.warn(s)], [console.error(s)]
    with one string argument. *)
Definition console_log (s : string) (now : Z) : Call :=
  {| c_level := log; c_args := [Js.VString s]; c_now := now |}.
Definition console_warn (s : string) (now : Z) : Call :=
  {| c_level := warn; c_args := [Js.VString s]; c_now := now |}.
Definition console_error (s : string) (now : Z) : Call :=
  {| c_level := error; c_args := [Js.VString s]; c_now := now |}.

(** What [getLogs()] returns after the calls [cs] were made on a capture
    built with [arg] and started: the content of the fresh array. *)
Definition snapshot_after (arg : option Z) (h : Slots HostFn)
    (cs : list Call) : option (list LogEntry) :=
  let (this, w0) := new arg h in
  w ← calls this cs (start w0);
  '(a, w') ← getLogs this w;
  read a w'.

(** The console holds wrappers of the matching levels. *)
Definition wrapped (w : World) : Prop :=
  forall l, exists n, slot l (console w) = Wrapper n l.

(** The array of the capture exists, and the allocator is past it. *)
Definition live (st : Instance * World) : Prop :=
  is_Some (heap st.2 !! logs st.1) /\ (logs st.1 < next_loc st.2)%nat.

End ConsoleCapture.

(** ** src/types/index.ts: questions *)

Module Types.

Inductive QuestionType := text | multipleChoice | boolean.

Record Question := {
  q_id : string;
  q_text : string;
  q_type : QuestionType;
  q_options : option (list string);
  q_required : bool
}.

(** The [data] of a [QuestionsMessage]. *)
Record QuestionsData := {
  d_sessionId : string;
  d_questions : list Question
}.

Inductive DebugMode := wait | backlog.

Inductive BacklogPriority := critical | high | medium | low.

Record ErrorInfo := {
  e_message : string;
  e_stack : string;
  e_fileName : option string;
  e_lineNumber : option Z;
  e_columnNumber : option Z
}.

End Types.

(** ** src/api/websocket.ts *)

Module WebSocketClient.
Import Types.

Definition Socket := nat.

(** A timer handle.  In a browser [setTimeout] returns a positive
    integer; a condition on it tests that it is not zero. *)
Definition Timer := nat.

(** The fields of the client; [R] is what the registered callback
    yields when it is run. *)
Record Client (R : Type) := {
  ws : option Socket;
  reconnectTimeout : option Timer;
  onQuestionsCallback : option (string -> list Question -> R)
}.
Arguments ws {R} _.
Arguments reconnectTimeout {R} _.
Arguments onQuestionsCallback {R} _.

(** The event loop as the client sees it: the timers that are pending,
    each with its delay in milliseconds, the handles and sockets given
    out so far, the number of times [connect()] ran, and the sockets on
    which [close()] was called. *)
Record Loop := {
  timers : list (Timer * Z);
  last_timer : Timer;
  sockets : nat;
  attempts : nat;
  closing : list Socket
}.

Definition new {R} : Client R * Loop :=
  ({| ws := None; reconnectTimeout := None; onQuestionsCallback := None |},
   {| timers := []; last_timer := 0%nat; sockets := 0%nat;
      attempts := 0%nat; closing := [] |}).

Definition truthy (t : option Timer) : bool :=
  match t with
  | Some h => negb (Nat.eqb h 0)
  | None => false
  end.

(** [setTimeout(callback, delay)] *)
Definition setTimeout (delay : Z) (e : Loop) : Timer * Loop :=
  let h := S (last_timer e) in
  (h, {| timers := timers e ++ [(h, delay)]; last_timer := h;
         sockets := sockets e; attempts := attempts e;
         closing := closing e |}).

(** [clearTimeout(handle)] *)
Definition clearTimeout (h : Timer) (e : Loop) : Loop :=
  {| timers := filter (fun t => fst t <> h) (timers e);
     last_timer := last_timer e; sockets := sockets e;
     attempts := attempts e; closing := closing e |}.

(** [scheduleReconnect()] *)
Definition scheduleReconnect {R} (c : Client R) (e : Loop)
  : Client R * Loop :=
  if truthy (reconnectTimeout c) then (c, e)
  else
    let (h, e') := setTimeout 5000 e in
    ({| ws := ws c; reconnectTimeout := Some h;
        onQuestionsCallback := onQuestionsCallback c |}, e').

(** [connect()]; [throws] says whether [new WebSocket(wsUrl)] raises, in
    which case the assignment to [this.ws] does not happen and the
    [catch] block schedules a reconnection. *)
Definition connect {R} (throws : bool) (c : Client R) (e : Loop)
  : Client R * Loop :=
  let e1 := {| timers := timers e; last_timer := last_timer e;
               sockets := sockets e; attempts := S (attempts e);
               closing := closing e |} in
  if throws then scheduleReconnect c e1
  else
    ({| ws := Some (sockets e1); reconnectTimeout := reconnectTimeout c;
        onQuestionsCallback := onQuestionsCallback c |},
     {| timers := timers e1; last_timer := last_timer e1;
        sockets := S (sockets e1); attempts := attempts e1;
        closing := closing e1 |}).

(** [disconnect()] *)
Definition disconnect {R} (c : Client R) (e : Loop) : Client R * Loop :=
  let (c1, e1) :=
    if truthy (reconnectTimeout c) then
      ({| ws := ws c; reconnectTimeout := None;
          onQuestionsCallback := onQuestionsCallback c |},
       match reconnectTimeout c with
       | Some h => clearTimeout h e
       | None => e
       end)
    else (c, e) in
  match ws c1 with
  | Some s =>
      ({| ws := None; reconnectTimeout := reconnectTimeout c1;
          onQuestionsCallback := onQuestionsCallback c1 |},
       {| timers := timers e1; last_timer := last_timer e1;
          sockets := sockets e1; attempts := attempts e1;
          closing := closing e1 ++ [s] |})
  | None => (c1, e1)
  end.

(** [onQuestions(callback)] *)
Definition onQuestions {R} (cb : string -> list Question -> R)
    (c : Client R) : Client R :=
  {| ws := ws c; reconnectTimeout := reconnectTimeout c;
     onQuestionsCallback := Some cb |}.

(** The callback handed to [setTimeout] by [scheduleReconnect]. *)
Definition timer_callback {R} (throws : bool) (c : Client R) (e : Loop)
  : Client R * Loop :=
  connect throws
    {| ws := ws c; reconnectTimeout := None;
       onQuestionsCallback := onQuestionsCallback c |} e.

(** What the event loop may do to the client. *)
Inductive Event :=
| Connect (throws : bool)
| Disconnect
| Close (s : Socket)
| Fire (h : Timer) (throws : bool).

(** One turn of the event loop.  [onclose] can only run on a socket that
    [connect()] built; a timer callback only for a pending timer, which
    is thereby used up. *)
Definition step {R} (ev : Event) (st : Client R * Loop)
  : option (Client R * Loop) :=
  let (c, e) := st in
  match ev with
  | Connect throws => Some (connect throws c e)
  | Disconnect => Some (disconnect c e)
  | Close s =>
      if Nat.ltb s (sockets e) then Some (scheduleReconnect c e) else None
  | Fire h throws =>
      if existsb (fun t => Nat.eqb (fst t) h) (timers e)
      then Some (timer_callback throws c (clearTimeout h e))
      else None
  end.

Fixpoint run {R} (evs : list Event) (st : Client R * Loop)
  : option (Client R * Loop) :=
  match evs with
  | [] => Some st
  | ev :: rest => st' ← step ev st; run rest st'
  end.

(** An incoming [event.data] after [JSON.parse]: not JSON at all, JSON
    without properties ([null]), or a value with a [type] and a [data]
    property, each possibly missing. *)
Inductive Payload :=
| Unparsable
| Nullish
| Parsed (type : option string) (data : option QuestionsData).

Inductive Handled (R : Type) :=
| Delivered (r : R)
| Ignored
| Logged.
Arguments Delivered {R} _.
Arguments Ignored {R}.
Arguments Logged {R}.

(** [handleMessage(message)]: reading [data.sessionId] of a missing
    [data] raises. *)
Definition handleMessage {R} (c : Client R) (type : option string)
    (data : option QuestionsData) : Handled R :=
  match type with
  | Some t =>
      if String.eqb t "questions" then
        match onQuestionsCallback c with
        | Some cb =>
            match data with
            | Some d => Delivered (cb (d_sessionId d) (d_questions d))
            | None => Logged
            end
        | None => Ignored
        end
      else Ignored
  | None => Ignored
  end.

(** [ws.onmessage]: whatever is thrown inside is logged and dropped. *)
Definition onmessage {R} (c : Client R) (p : Payload) : Handled R :=
  match p with
  | Unparsable => Logged
  | Nullish => Logged
  | Parsed type data => handleMessage c type data
  end.

(** The pending timers are exactly the one the client remembers, if it
    remembers one; its delay is 5000 ms and its handle is not zero. *)
Definition single_timer {R} (st : Client R * Loop) : Prop :=
  timers st.2 =
    match reconnectTimeout st.1 with
    | Some h => [(h, 5000)]
    | None => []
    end
  /\ reconnectTimeout st.1 <> Some 0%nat.

End WebSocketClient.

(** ** src/api/client.ts *)

Module APIClient.
Import Types.

(** [SubmitDebugReportRequest]: the object handed to the client. Its
    [logs] is a reference to an array. *)
Record SubmitDebugReportRequest := {
  r_logs : ConsoleCapture.loc;
  r_error : option ErrorInfo;
  r_screenshot : option string;
  r_comment : string;
  r_url : string;
  r_projectPath : option string;
  r_timestamp : Z;
  r_userAgent : string;
  r_mode : DebugMode;
  r_priority : BacklogPriority
}.

(** What [JSON.stringify(data)] writes into the body: the entries
    themselves, as they are when the text is built. *)
Record DebugReport := {
  logs : list ConsoleCapture.LogEntry;
  error : option ErrorInfo;
  screenshot : option string;
  comment : string;
  url : string;
  projectPath : option string;
  timestamp : Z;
  userAgent : string;
  mode : DebugMode;
  priority : BacklogPriority
}.

Record SubmitAnswersRequest := {
  a_sessionId : string;
  a_answers : list (string * string)
}.

(** A request handed to [fetch]. *)
Inductive Request :=
| PostDebug (endpoint : string) (body : DebugReport)
| PostAnswers (endpoint : string) (body : SubmitAnswersRequest).

(** The [data] property of a parsed response body; any field may be
    missing. *)
Record Receipt := {
  reportId : option string;
  sessionId : option string;
  backlogItemId : option string
}.

(** What [response.json()] gives: a rejection, a value without
    properties ([null]), or a value whose [data] is present or not. *)
Inductive Json :=
| JsonRejects (e : Js.Thrown)
| JsonNull (e : Js.Thrown)
| JsonValue (data : option Receipt).

(** How a [fetch] settles: it rejects, or resolves to a response. *)
Inductive Fetched :=
| Rejects (e : Js.Thrown)
| Response (ok : bool) (statusText : string) (body : Json).

(** An asynchronous function up to its first [await] and from there. *)
Inductive Result (A : Type) :=
| Returns (a : A)
| Throws (e : Js.Thrown).
Arguments Returns {A} _.
Arguments Throws {A} _.

Definition serialize (w : ConsoleCapture.World)
    (data : SubmitDebugReportRequest) : option DebugReport :=
  xs ← ConsoleCapture.read (r_logs data) w;
  Some {| logs := xs; error := r_error data;
          screenshot := r_screenshot data; comment := r_comment data;
          url := r_url data; projectPath := r_projectPath data;
          timestamp := r_timestamp data; userAgent := r_userAgent data;
          mode := r_mode data; priority := r_priority data |}.

(** [submitDebugReport(data)]: the request it issues ... *)
Definition submitDebugReport_request (baseUrl : string)
    (w : ConsoleCapture.World) (data : SubmitDebugReportRequest)
  : option Request :=
  body ← serialize w data;
  Some (PostDebug (baseUrl +:+ "/api/debug") body).

(** ... and what it makes of the answer. *)
Definition submitDebugReport_settle (f : Fetched) : Result (option Receipt) :=
  match f with
  | Rejects e => Throws e
  | Response false statusText _ =>
      Throws {| Js.thrown_name := "Error";
                Js.thrown_message :=
                  "Failed to submit debug report: " +:+ statusText |}
  | Response true _ (JsonRejects e) => Throws e
  | Response true _ (JsonNull e) => Throws e
  | Response true _ (JsonValue data) => Returns data
  end.

(** [submitAnswers(data)] *)
Definition submitAnswers_request (baseUrl : string)
    (data : SubmitAnswersRequest) : Request :=
  PostAnswers (baseUrl +:+ "/api/questions/answer") data.

Definition submitAnswers_settle (f : Fetched) : Result unit :=
  match f with
  | Rejects e => Throws e
  | Response false statusText _ =>
      Throws {| Js.thrown_name := "Error";
                Js.thrown_message :=
                  "Failed to submit answers: " +:+ statusText |}
  | Response true _ _ => Returns tt
  end.

End APIClient.

(** ** src/widget/Widget.tsx *)

Module Widget.
Import Types.

Inductive SessionStatus := pending | answered | timeout.

Record DebugSession := {
  id : string;
  timestamp : Z;
  s_comment : string;
  status_of : SessionStatus;
  reportId : option string;
  s_sessionId : option string
}.

(** A JavaScript object used as a map from question id to answer, as
    the list of its properties in the order in which they were created.
    The order in which the engine enumerates them is that of [entries]
    below. *)
Definition Answers := list (string * string).

Fixpoint get (k : string) (o : Answers) : option string :=
  match o with
  | [] => None
  | (k', v) :: rest => if String.eqb k' k then Some v else get k rest
  end.

(** [{ ...o, [k]: v }] *)
Fixpoint set (k v : string) (o : Answers) : Answers :=
  match o with
  | [] => [(k, v)]
  | (k', v') :: rest =>
      if String.eqb k' k then (k', v) :: rest else (k', v') :: set k v rest
  end.

(** The values held by the [useState] hooks.  A handler is a closure
    over the values of the render that created it. *)
Record State := {
  isOpen : bool;
  showSettings : bool;
  comment : string;
  screenshot : option string;
  isCapturing : bool;
  isSending : bool;
  status : string;
  projectPath : string;
  debugMode : DebugMode;
  isWaitingForResponse : bool;
  sessions : list DebugSession;
  questions : list Question;
  sessionId : option string;
  answers : Answers;
  currentStep : Z
}.

(** The first render: the initial values of the hooks, given what the
    configuration and the local storage hold. *)
Definition initial (path : string) (mode : DebugMode)
    (stored : list DebugSession) : State :=
  {| isOpen := false; showSettings := false; comment := "";
     screenshot := None; isCapturing := false; isSending := false;
     status := ""; projectPath := path; debugMode := mode;
     isWaitingForResponse := false; sessions := stored; questions := [];
     sessionId := None; answers := []; currentStep := 0 |}.

(** What is kept under [SESSION_STORAGE_KEY]. *)
Definition Storage := option (list DebugSession).

(** What a handler does: calls of state setters, a write to local
    storage, a line on the console. *)
Inductive Action :=
| SetComment (v : string)
| SetScreenshot (v : option string)
| SetIsCapturing (v : bool)
| SetIsSending (v : bool)
| SetStatus (v : string)
| SetIsWaitingForResponse (v : bool)
| SetSessions (v : list DebugSession)
| SetQuestions (v : list Question)
| SetSessionId (v : option string)
| SetAnswers (v : Answers)
| SetCurrentStep (v : Z)
| StorageSet (v : list DebugSession)
| Console (l : ConsoleCapture.Level) (label : string).

Definition apply (a : Action) (u : State * Storage) : State * Storage :=
  let (s, store) := u in
  let mk c sc ic isd st w ss qs sid ans step :=
    {| isOpen := isOpen s; showSettings := showSettings s; comment := c;
       screenshot := sc; isCapturing := ic; isSending := isd; status := st;
       projectPath := projectPath s; debugMode := debugMode s;
       isWaitingForResponse := w; sessions := ss; questions := qs;
       sessionId := sid; answers := ans; currentStep := step |} in
  let keep c sc ic isd st w ss qs sid ans step :=
    (mk c sc ic isd st w ss qs sid ans step, store) in
  match a with
  | SetComment v =>
      keep v (screenshot s) (isCapturing s) (isSending s) (status s)
        (isWaitingForResponse s) (sessions s) (questions s) (sessionId s)
        (answers s) (currentStep s)
  | SetScreenshot v =>
      keep (comment s) v (isCapturing s) (isSending s) (status s)
        (isWaitingForResponse s) (sessions s) (questions s) (sessionId s)
        (answers s) (currentStep s)
  | SetIsCapturing v =>
      keep (comment s) (screenshot s) v (isSending s) (status s)
        (isWaitingForResponse s) (sessions s) (questions s) (sessionId s)
        (answers s) (currentStep s)
  | SetIsSending v =>
      keep (comment s) (screenshot s) (isCapturing s) v (status s)
        (isWaitingForResponse s) (sessions s) (questions s) (sessionId s)
        (answers s) (currentStep s)
  | SetStatus v =>
      keep (comment s) (screenshot s) (isCapturing s) (isSending s) v
        (isWaitingForResponse s) (sessions s) (questions s) (sessionId s)
        (answers s) (currentStep s)
  | SetIsWaitingForResponse v =>
      keep (comment s) (screenshot s) (isCapturing s) (isSending s)
        (status s) v (sessions s) (questions s) (sessionId s) (answers s)
        (currentStep s)
  | SetSessions v =>
      keep (comment s) (screenshot s) (isCapturing s) (isSending s)
        (status s) (isWaitingForResponse s) v (questions s) (sessionId s)
        (answers s) (currentStep s)
  | SetQuestions v =>
      keep (comment s) (screenshot s) (isCapturing s) (isSending s)
        (status s) (isWaitingForResponse s) (sessions s) v (sessionId s)
        (answers s) (currentStep s)
  | SetSessionId v =>
      keep (comment s) (screenshot s) (isCapturing s) (isSending s)
        (status s) (isWaitingForResponse s) (sessions s) (questions s) v
        (answers s) (currentStep s)
  | SetAnswers v =>
      keep (comment s) (screenshot s) (isCapturing s) (isSending s)
        (status s) (isWaitingForResponse s) (sessions s) (questions s)
        (sessionId s) v (currentStep s)
  | SetCurrentStep v =>
      keep (comment s) (screenshot s) (isCapturing s) (isSending s)
        (status s) (isWaitingForResponse s) (sessions s) (questions s)
        (sessionId s) (answers s) v
  | StorageSet v => (s, Some v)
  | Console _ _ => (s, store)
  end.

Definition perform (acts : list Action) (u : State * Storage)
  : State * Storage :=
  fold_left (fun u a => apply a u) acts u.

(** [StorageSet] is the [localStorage.setItem] of [saveSessions], which
    sits in a [try] block whose [catch] is empty.  [apply] and [perform]
    are the case of a storage that takes the write.  In general the
    storage decides: when [setItem] throws ([writable] is [false]) nothing
    is written, the exception is swallowed, and the handler goes on. *)
Definition apply_in (writable : bool) (a : Action) (u : State * Storage)
  : State * Storage :=
  match a with
  | StorageSet _ => if writable then apply a u else u
  | _ => apply a u
  end.

Definition perform_in (writable : bool) (acts : list Action)
    (u : State * Storage) : State * Storage :=
  fold_left (fun u a => apply_in writable a u) acts u.

(** [sessions.slice(-50)] *)
Definition slice_last_50 (l : list DebugSession) : list DebugSession :=
  ConsoleCapture.lastn 50 l.

(** [saveSessions(sessions)]: the guarded write of the trimmed list; see
    [apply_in] for what becomes of it. *)
Definition saveSessions (l : list DebugSession) : list Action :=
  [StorageSet (slice_last_50 l)].

(** [x || undefined] and [x || fallback] on strings *)
Definition or_undefined (x : option string) : option string :=
  if Js.truthy_string x then x else None.

Definition or_else (x fallback : string) : string :=
  if String.eqb x "" then fallback else x.

(** An asynchronous handler: what it does at once, and, where it then
    waits for a request, what it does when the request settles. *)
Inductive Script :=
| Done (acts : list Action)
| Await (acts : list Action) (req : APIClient.Request)
    (k : APIClient.Fetched -> list Action).

Definition at_once (s : Script) : list Action :=
  match s with Done acts => acts | Await acts _ _ => acts end.

Definition requests (s : Script) : list APIClient.Request :=
  match s with Done _ => [] | Await _ req _ => [req] end.

Definition settled (s : Script) (f : APIClient.Fetched) : list Action :=
  match s with Done _ => [] | Await _ _ k => k f end.

(** The callback registered with [wsClient.onQuestions]. *)
Definition onQuestions (sid : string) (qs : list Question) : list Action :=
  [ Console ConsoleCapture.log "Received questions from server:";
    SetSessionId (Some sid);
    SetQuestions qs;
    SetAnswers [];
    SetCurrentStep 0;
    SetIsWaitingForResponse false;
    SetStatus "Questions received" ].

(** The part of [handleSend] that builds the report: the snapshot of the
    logs, the retained error, the clock, the page. [cc] is the capture
    the handler closes over, [err] what [errorCapture.getError()]
    returns, [href] and [agent] the location and the user agent. *)
Definition report (r : State) (cc : ConsoleCapture.Instance)
    (err : option ErrorInfo) (now : Z) (href agent : string)
    (w : ConsoleCapture.World)
  : option (APIClient.SubmitDebugReportRequest * ConsoleCapture.World) :=
  '(currentLogs, w') ← ConsoleCapture.getLogs cc w;
  Some ({| APIClient.r_logs := currentLogs;
           APIClient.r_error := err;
           APIClient.r_screenshot := or_undefined (screenshot r);
           APIClient.r_comment := comment r;
           APIClient.r_url := href;
           APIClient.r_projectPath := or_undefined (Some (projectPath r));
           APIClient.r_timestamp := now;
           APIClient.r_userAgent := agent;
           APIClient.r_mode := debugMode r;
           APIClient.r_priority := medium |}, w').

(** The rest of the [try] block of [handleSend], once the call has
    returned [response]: the new session record, and what is done with
    it. *)
Definition newSession (r : State) (now : Z)
    (response : option APIClient.Receipt) : DebugSession :=
  {| id := "session-" +:+ pretty now;
     timestamp := now;
     s_comment := or_else (comment r) "No comment";
     status_of := pending;
     reportId := response ≫= APIClient.reportId;
     s_sessionId := response ≫= APIClient.sessionId |}.

Definition sent (r : State) (now : Z) (response : option APIClient.Receipt)
  : list Action :=
  let updatedSessions := sessions r ++ [newSession r now response] in
  [SetSessions updatedSessions] ++ saveSessions updatedSessions ++
  [SetComment ""; SetScreenshot None] ++
  match debugMode r with
  | wait => [SetIsWaitingForResponse true; SetStatus "Waiting for response..."]
  | backlog => [SetStatus "Added to backlog"]
  end.

(** The [catch] block of [handleSend]. *)
Definition send_failed (e : Js.Thrown) : list Action :=
  [ Console ConsoleCapture.error "Send error:";
    SetStatus ("Error: " +:+ Js.Thrown_toString e);
    SetIsWaitingForResponse false ].

(** [handleSend], as created by a render with the values [r]. *)
Definition handleSend (baseUrl : string) (r : State)
    (cc : ConsoleCapture.Instance) (err : option ErrorInfo) (now : Z)
    (href agent : string) (w : ConsoleCapture.World)
  : option (Script * ConsoleCapture.World) :=
  '(data, w') ← report r cc err now href agent w;
  req ← APIClient.submitDebugReport_request baseUrl w' data;
  Some (Await [SetIsSending true; SetStatus "Sending..."] req
          (fun f =>
             match APIClient.submitDebugReport_settle f with
             | APIClient.Returns response => sent r now response
             | APIClient.Throws e => send_failed e
             end ++ [SetIsSending false]),
        w').

(** The value of a decimal digit. *)
Definition digit (c : ascii) : option N :=
  let n := N_of_ascii c in
  if ((48 <=? n) && (n <=? 57))%N then Some (n - 48)%N else None.

Fixpoint decimal (s : string) (acc : N) : option N :=
  match s with
  | EmptyString => Some acc
  | String c rest => d ← digit c; decimal rest (10 * acc + d)%N
  end.

(** A property key that is an array index: a decimal numeral without a
    leading zero (but "0" itself) whose value is below 2^32 - 1. *)
Definition array_index (k : string) : option N :=
  match k with
  | EmptyString => None
  | String c rest =>
      if Ascii.eqb c "0" && negb (String.eqb rest "") then None
      else n ← decimal k 0; if (n <? 4294967295)%N then Some n else None
  end.

Fixpoint insert_index (n : N) (e : string * string)
    (l : list (N * (string * string))) : list (N * (string * string)) :=
  match l with
  | [] => [(n, e)]
  | (m, e') :: rest =>
      if (n <? m)%N then (n, e) :: l else (m, e') :: insert_index n e rest
  end.

(** The properties whose keys are array indices, in ascending order of
    the index. *)
Definition index_properties (o : Answers) : list (string * string) :=
  map snd
    (fold_right (fun ne acc => insert_index ne.1 ne.2 acc) []
       (omap (fun e => n ← array_index e.1; Some (n, e)) o)).

(** The own property keys of an object as the engine lists them: the
    array indices in ascending order, then the other keys in the order in
    which they were created. *)
Definition own_properties (o : Answers) : list (string * string) :=
  index_properties o ++ filter (fun e => array_index e.1 = None) o.

(** [Object.entries(answers).map(...)] *)
Definition entries (o : Answers) : list (string * string) :=
  map (fun '(questionId, answer) => (questionId, answer)) (own_properties o).

(** [s.sessionId === sessionId] *)
Definition same_session (sid : string) (s : DebugSession) : bool :=
  match s_sessionId s with
  | Some x => String.eqb x sid
  | None => false
  end.

Definition mark_answered (sid : string) (s : DebugSession) : DebugSession :=
  if same_session sid s then
    {| id := id s; timestamp := timestamp s; s_comment := s_comment s;
       status_of := answered; reportId := reportId s;
       s_sessionId := s_sessionId s |}
  else s.

(** [handleSubmitAnswers], as created by a render with the values [r]. *)
Definition handleSubmitAnswers (baseUrl : string) (r : State) : Script :=
  if negb (Js.truthy_string (sessionId r)) then Done []
  else
    match sessionId r with
    | None => Done []
    | Some sid =>
        Await []
          (APIClient.submitAnswers_request baseUrl
             {| APIClient.a_sessionId := sid;
                APIClient.a_answers := entries (answers r) |})
          (fun f =>
             match APIClient.submitAnswers_settle f with
             | APIClient.Returns _ =>
                 let updatedSessions := map (mark_answered sid) (sessions r) in
                 [SetSessions updatedSessions] ++
                 saveSessions updatedSessions ++
                 [ SetQuestions []; SetSessionId None;
                   SetIsWaitingForResponse false;
                   SetStatus "Answers submitted" ]
             | APIClient.Throws _ => [SetStatus "Failed to submit answers"]
             end)
    end.

(** [questions[currentStep]] *)
Definition current (r : State) : option Question :=
  if currentStep r <? 0 then None
  else questions r !! Z.to_nat (currentStep r).

(** The buttons below a question in the modal. *)
Inductive Button := Back | Next | SubmitAnswers.

(** Which of them a render with the values [r] shows; none when reading
    [questions[currentStep].text] fails. *)
Definition buttons (r : State) : list Button :=
  if (0 <? Z.of_nat (length (questions r)))
     && (currentStep r <? Z.of_nat (length (questions r)))
  then
    match current r with
    | None => []
    | Some _ =>
        (if 0 <? currentStep r then [Back] else []) ++
        [if currentStep r <? Z.of_nat (length (questions r)) - 1
         then Next else SubmitAnswers]
    end
  else [].

(** Their [onClick] handlers. *)
Definition onClick (baseUrl : string) (r : State) (b : Button) : Script :=
  match b with
  | Back => Done [SetCurrentStep (currentStep r - 1)]
  | Next => Done [SetCurrentStep (currentStep r + 1)]
  | SubmitAnswers => handleSubmitAnswers baseUrl r
  end.

(** [onInput] of the text field of the current question; there is no
    field unless the current question is of type [text]. *)
Definition onInput (r : State) (value : string) : option (list Action) :=
  if (0 <? Z.of_nat (length (questions r)))
     && (currentStep r <? Z.of_nat (length (questions r)))
  then
    q ← current r;
    match q_type q with
    | text => Some [SetAnswers (set (q_id q) value (answers r))]
    | _ => None
    end
  else None.

(** [answers[questions[currentStep].id] || ''], the text the field
    shows. *)
Definition shown_answer (r : State) (q : Question) : string :=
  match get (q_id q) (answers r) with
  | Some v => v
  | None => ""
  end.

End Widget.

(** ** src/capture/console-capture.ts, further *)

Module Interception.
Import ConsoleCapture.

(** The host function and the arguments that the wrapper of a call hands
    to [apply]. *)
Definition passed_on (h : Slots HostFn) (c : Call)
  : HostFn * list Js.Value :=
  (slot (c_level c) h, c_args c).

End Interception.

(** ** src/capture/error-capture.ts *)

Module ErrorCapture.
Import Types.

(** What [handleError] reads of an [ErrorEvent]; [ev_stack] is
    [event.error?.stack], missing when there is no error object or it has
    no stack. *)
Record ErrorEvent := {
  ev_message : string;
  ev_stack : option string;
  ev_filename : string;
  ev_lineno : Z;
  ev_colno : Z
}.

(** The [reason] of a [PromiseRejectionEvent]: [null] or [undefined], or
    a value with its [message] and [stack] properties, each possibly
    missing; [str] is what a template literal makes of the value. *)
Inductive Reason :=
| Nullish (str : string)
| Value (message : option string) (stack : option string) (str : string).

Inductive Event :=
| OnError (ev : ErrorEvent)
| OnRejection (reason : Reason).

(** [x || ''] *)
Definition or_empty (x : option string) : string :=
  match x with
  | Some s => s
  | None => ""
  end.

(** The record [handleError] stores. *)
Definition of_error (ev : ErrorEvent) : ErrorInfo :=
  {| e_message := ev_message ev;
     e_stack := or_empty (ev_stack ev);
     e_fileName := Some (ev_filename ev);
     e_lineNumber := Some (ev_lineno ev);
     e_columnNumber := Some (ev_colno ev) |}.

(** [reason?.message || reason] inside the template literal *)
Definition reason_text (reason : Reason) : string :=
  match reason with
  | Nullish str => str
  | Value message _ str =>
      if Js.truthy_string message then or_empty message else str
  end.

(** [reason?.stack || ''] *)
Definition reason_stack (reason : Reason) : string :=
  match reason with
  | Nullish _ => ""
  | Value _ stack _ => or_empty stack
  end.

(** The record [handleRejection] stores. *)
Definition of_rejection (reason : Reason) : ErrorInfo :=
  {| e_message := "Unhandled Promise Rejection: " +:+ reason_text reason;
     e_stack := reason_stack reason;
     e_fileName := None;
     e_lineNumber := None;
     e_columnNumber := None |}.

Definition info_of (ev : Event) : ErrorInfo :=
  match ev with
  | OnError e => of_error e
  | OnRejection r => of_rejection r
  end.

(** The listeners of [window], by the identity of the instance whose
    [handleError] or [handleRejection] they are. *)
Record Window := {
  error_listeners : list nat;
  rejection_listeners : list nat
}.

(** The instance: its identity and its one field. *)
Record Instance := {
  ident : nat;
  capturedError : option ErrorInfo
}.

(** [addEventListener]: a listener that is already registered is not
    added again. *)
Definition add (i : nat) (l : list nat) : list nat :=
  if existsb (Nat.eqb i) l then l else l ++ [i].

(** [removeEventListener]: the registration of the listener, if there
    is one, is taken out. *)
Fixpoint remove (i : nat) (l : list nat) : list nat :=
  match l with
  | [] => []
  | j :: rest => if Nat.eqb i j then rest else j :: remove i rest
  end.

Definition new (i : nat) : Instance :=
  {| ident := i; capturedError := None |}.

(** [start()] *)
Definition start (this : Instance) (win : Window) : Window :=
  {| error_listeners := add (ident this) (error_listeners win);
     rejection_listeners := add (ident this) (rejection_listeners win) |}.

(** [stop()] *)
Definition stop (this : Instance) (win : Window) : Window :=
  {| error_listeners := remove (ident this) (error_listeners win);
     rejection_listeners := remove (ident this) (rejection_listeners win) |}.

(** [getError()] *)
Definition getError (this : Instance) : option ErrorInfo :=
  capturedError this.

(** [clear()] *)
Definition clear (this : Instance) : Instance :=
  {| ident := ident this; capturedError := None |}.

(** The window dispatches an event: the handler of the instance runs if
    it is registered for that kind of event. *)
Definition dispatch (ev : Event) (this : Instance) (win : Window)
  : Instance :=
  let listeners :=
    match ev with
    | OnError _ => error_listeners win
    | OnRejection _ => rejection_listeners win
    end in
  if existsb (Nat.eqb (ident this)) listeners
  then {| ident := ident this; capturedError := Some (info_of ev) |}
  else this.

Inductive Op :=
| Start
| Stop
| Clear
| Dispatch (ev : Event).

Definition run_op (op : Op) (st : Instance * Window) : Instance * Window :=
  let (this, win) := st in
  match op with
  | Start => (this, start this win)
  | Stop => (this, stop this win)
  | Clear => (clear this, win)
  | Dispatch ev => (dispatch ev this win, win)
  end.

Definition run (ops : list Op) (st : Instance * Window) : Instance * Window :=
  fold_left (fun st op => run_op op st) ops st.

(** No listener is registered twice in the window. *)
Definition distinct (win : Window) : Prop :=
  NoDup (error_listeners win) /\ NoDup (rejection_listeners win).

End ErrorCapture.

(** ** src/api/websocket.ts and src/api/client.ts, further *)

Module Channel.
Import WebSocketClient.

(** [this.url.replace(/^http/, 'ws')] *)
Definition wsUrl (url : string) : string :=
  match url with
  | String "h"%char (String "t"%char (String "t"%char (String "p"%char rest))) =>
      "ws" +:+ rest
  | _ => url
  end.

(** The timer that is pending fires and [new WebSocket] raises, [n] times
    in a row. *)
Fixpoint fail_again {R} (n : nat) (st : Client R * Loop)
  : option (Client R * Loop) :=
  match n with
  | O => Some st
  | S n' =>
      match timers st.2 with
      | (h, _) :: _ => st' ← step (Fire h true) st; fail_again n' st'
      | [] => None
      end
  end.

(** The socket the client holds was built by it. *)
Definition ws_known {R} (st : Client R * Loop) : Prop :=
  forall s, ws st.1 = Some s -> (s < sockets st.2)%nat.

End Channel.

(** ** src/widget/Widget.tsx, further *)

Module Panel.
Import Types Widget.

(** What [localStorage.getItem] gives for a key: nothing, the empty
    string, a text that is not JSON, or the text of a value of the type
    the widget writes under that key. *)
Inductive Item (A : Type) :=
| Absent
| Empty
| Unparsable
| Parsed (v : A).
Arguments Absent {A}.
Arguments Empty {A}.
Arguments Unparsable {A}.
Arguments Parsed {A} _.

(** [loadSessions()] *)
Definition loadSessions (stored : Item (list DebugSession))
  : list DebugSession :=
  match stored with
  | Parsed v => v
  | _ => []
  end.

(** What [getItem(SESSION_STORAGE_KEY)] gives after the writes of the
    widget. *)
Definition item_of (store : Storage) : Item (list DebugSession) :=
  match store with
  | Some v => Parsed v
  | None => Absent
  end.

Record StoredSettings := {
  st_projectPath : string;
  st_debugMode : DebugMode
}.

(** [loadStoredSettings()] *)
Definition loadStoredSettings (stored : Item StoredSettings)
  : StoredSettings :=
  match stored with
  | Parsed v => v
  | _ => {| st_projectPath := ""; st_debugMode := wait |}
  end.

(** The values of the hooks in the first render: [config.projectPath ||
    storedSettings.projectPath || ''], the stored mode, the stored
    sessions. *)
Definition first_render (configPath : string)
    (settings : Item StoredSettings) (stored : Item (list DebugSession))
  : State :=
  initial
    (or_else configPath (st_projectPath (loadStoredSettings settings)))
    (st_debugMode (loadStoredSettings settings))
    (loadSessions stored).

(** [handleCaptureScreenshot]: what it does at once, and when
    [captureScreenshot()] has settled. *)
Definition handleCaptureScreenshot_begin : list Action :=
  [SetIsCapturing true].

Definition handleCaptureScreenshot_settle (res : APIClient.Result string)
  : list Action :=
  match res with
  | APIClient.Returns ss =>
      [SetScreenshot (Some ss); SetStatus "Screenshot captured"]
  | APIClient.Throws _ =>
      [Console ConsoleCapture.error "Screenshot error:";
       SetStatus "Screenshot failed"]
  end ++ [SetIsCapturing false].

(** The [disabled] attribute of the send button and of the screenshot
    button. *)
Definition send_disabled (r : State) : bool :=
  isSending r || isWaitingForResponse r.

Definition capture_disabled (r : State) : bool := isCapturing r.

(** [sessions.slice(-5).reverse()], the sessions the panel lists. *)
Definition recent (l : list DebugSession) : list DebugSession :=
  rev (ConsoleCapture.lastn 5 l).

(** [onChange] of the radio button of [choice] for the current
    question. *)
Definition onChange (r : State) (choice : string) : option (list Action) :=
  if (0 <? Z.of_nat (length (questions r)))
     && (currentStep r <? Z.of_nat (length (questions r)))
  then
    q ← current r;
    match q_type q with
    | multipleChoice =>
        if existsb (String.eqb choice) (default [] (q_options q))
        then Some [SetAnswers (set (q_id q) choice (answers r))]
        else None
    | _ => None
    end
  else None.

(** The user enters [value] through the control the modal shows for the
    current question: the field of a text question, the radio button of
    that option of a multiple-choice question.  The modal renders no
    control for a question of type boolean. *)
Definition enter (r : State) (value : string) : option (list Action) :=
  q ← current r;
  match q_type q with
  | text => onInput r value
  | multipleChoice => onChange r value
  | boolean => None
  end.

(** A click on one of the buttons below the question, if the render
    shows it; what it does before any request settles. *)
Definition click (baseUrl : string) (b : Button) (u : State * Storage)
  : State * Storage :=
  if existsb (fun b' => match b, b' with
                        | Back, Back | Next, Next
                        | SubmitAnswers, SubmitAnswers => true
                        | _, _ => false
                        end) (buttons u.1)
  then perform (at_once (onClick baseUrl u.1 b)) u
  else u.

(** The index names a question. *)
Definition in_range (r : State) : Prop :=
  0 <= currentStep r < Z.of_nat (length (questions r)).

End Panel.

(** ** src/config/index.ts and src/index.ts *)

Module Config.

(** A key of the object the host page may put in [window.debugWidget]:
    missing, present with the value [undefined], or present with a
    value. *)
Inductive Key (A : Type) :=
| Missing
| Undefined
| Given (a : A).
Arguments Missing {A}.
Arguments Undefined {A}.
Arguments Given {A} _.

Record Partial := {
  p_enabled : Key bool;
  p_mcpUrl : Key string;
  p_projectPath : Key string;
  p_position : Key string;
  p_theme : Key string;
  p_hideScreenshot : Key bool;
  p_keyboardShortcut : Key string;
  p_maxLogEntries : Key Z;
  p_maxFileSize : Key Z
}.

(** The configuration after the merge; a key that the host set to
    [undefined] is [undefined] here. *)
Record DebugWidgetConfig := {
  enabled : option bool;
  mcpUrl : option string;
  projectPath : option string;
  position : option string;
  theme : option string;
  hideScreenshot : option bool;
  keyboardShortcut : option string;
  maxLogEntries : option Z;
  maxFileSize : option Z
}.

(** [DEFAULT_CONFIG]; [production] is [process.env.NODE_ENV ===
    'production']. *)
Definition DEFAULT_CONFIG (production : bool) : DebugWidgetConfig :=
  {| enabled := Some (negb production);
     mcpUrl := Some "http://localhost:4000";
     projectPath := Some "";
     position := Some "bottom-right";
     theme := Some "auto";
     hideScreenshot := Some false;
     keyboardShortcut := Some "Cmd+Shift+D";
     maxLogEntries := Some 1000;
     maxFileSize := Some (10 * 1024 * 1024) |}.

(** One key of [{ ...DEFAULT_CONFIG, ...userConfig }] *)
Definition spread {A} (default : option A) (k : Key A) : option A :=
  match k with
  | Missing => default
  | Undefined => None
  | Given a => Some a
  end.

Definition empty : Partial :=
  {| p_enabled := Missing; p_mcpUrl := Missing; p_projectPath := Missing;
     p_position := Missing; p_theme := Missing; p_hideScreenshot := Missing;
     p_keyboardShortcut := Missing; p_maxLogEntries := Missing;
     p_maxFileSize := Missing |}.

(** [loadConfig()]; [host] is [window.debugWidget], if there is one. *)
Definition loadConfig (production : bool) (host : option Partial)
  : DebugWidgetConfig :=
  let userConfig := default empty host in
  let d := DEFAULT_CONFIG production in
  {| enabled := spread (enabled d) (p_enabled userConfig);
     mcpUrl := spread (mcpUrl d) (p_mcpUrl userConfig);
     projectPath := spread (projectPath d) (p_projectPath userConfig);
     position := spread (position d) (p_position userConfig);
     theme := spread (theme d) (p_theme userConfig);
     hideScreenshot := spread (hideScreenshot d) (p_hideScreenshot userConfig);
     keyboardShortcut :=
       spread (keyboardShortcut d) (p_keyboardShortcut userConfig);
     maxLogEntries := spread (maxLogEntries d) (p_maxLogEntries userConfig);
     maxFileSize := spread (maxFileSize d) (p_maxFileSize userConfig) |}.

(** [init()]: the configuration the widget is rendered with, or nothing
    when [!config.enabled]. *)
Definition init (production : bool) (host : option Partial)
  : option DebugWidgetConfig :=
  let config := loadConfig production host in
  match enabled config with
  | Some true => Some config
  | _ => None
  end.

(** [new ConsoleCapture(config.maxLogEntries)] in [Widget], on a page
    whose console holds the functions [h]. *)
Definition capture_of (config : DebugWidgetConfig)
    (h : ConsoleCapture.Slots ConsoleCapture.HostFn)
  : ConsoleCapture.Instance * ConsoleCapture.World :=
  ConsoleCapture.new (maxLogEntries config) h.

End Config.

(** ** src/widget/Widget.tsx: the captures of a render *)

Module Render.
Import ConsoleCapture.

(** To a capture that is built later, a wrapper that an earlier capture
    put into the console is a function that was there before it, like any
    patch of the host page. *)
Definition found (f : ConsoleFn) : HostFn :=
  match f with
  | Host h => h
  | Wrapper id _ => Patched id
  end.

(** [new ConsoleCapture(config.maxLogEntries)] in the body of [Widget],
    which runs in every render: a new array, and the functions the
    console holds at that moment. *)
Definition construct (arg : option Z) (w : World) : Instance * World :=
  let (a, w') := alloc [] w in
  ({| logs := a;
      maxEntries := match arg with Some n => n | None => 1000 end;
      originalConsole :=
        {| s_log := found (s_log (console w));
           s_warn := found (s_warn (console w));
           s_error := found (s_error (console w)) |} |}, w').

(** The console captures of a widget: the one of the first render, which
    the effect of that render starts, and the one of the latest render,
    which the handlers of that render close over. *)
Record Captures := {
  started : Instance;
  latest : Instance;
  world : World
}.

(** Further renders: before each of them the page makes some calls, and
    each builds a capture of its own, which replaces the one that the
    handlers close over. *)
Fixpoint again (arg : option Z) (cc1 : Instance) (batches : list (list Call))
    (cc : Instance) (w : World) : option (Instance * World) :=
  match batches with
  | [] => Some (cc, w)
  | cs :: rest =>
      w1 ← calls cc1 cs w;
      let (cc', w2) := construct arg w1 in
      again arg cc1 rest cc' w2
  end.

(** The widget is mounted on a page whose console holds the functions
    [h]: the first render builds a capture, and its effect, which has no
    dependencies and so runs this once, starts it.  The page makes the
    calls [cs].  A change of state, such as opening the panel, renders
    again, and that render builds a capture of its own.  Any number of
    further renders follow, each after the calls of one of the
    [batches], and at last the page makes the calls [cs']. *)
Definition rerendered (arg : option Z) (h : Slots HostFn)
    (cs : list Call) (batches : list (list Call)) (cs' : list Call)
  : option Captures :=
  let (cc1, w1) := construct arg (page h) in
  w2 ← calls cc1 cs (start w1);
  let (cc2, w3) := construct arg w2 in
  '(cc, w4) ← again arg cc1 batches cc2 w3;
  w5 ← calls cc1 cs' w4;
  Some {| started := cc1; latest := cc; world := w5 |}.

(** The same for [new ErrorCapture()]: the capture [i1] of the first
    render is started, the events [evs] happen, the latest render builds
    the capture [i2], and the events [evs'] happen.  The captures of the
    renders in between are registered nowhere and asked by no handler
    that can still run. *)
Record ErrorCaptures := {
  e_started : ErrorCapture.Instance;
  e_latest : ErrorCapture.Instance
}.

Definition rerendered_errors (i1 i2 : nat) (win : ErrorCapture.Window)
    (evs evs' : list ErrorCapture.Event) : ErrorCaptures :=
  let ec1 := ErrorCapture.new i1 in
  let win1 := ErrorCapture.start ec1 win in
  let ec1' :=
    (ErrorCapture.run (map ErrorCapture.Dispatch evs) (ec1, win1)).1 in
  let ec2 := ErrorCapture.new i2 in
  {| e_started :=
       (ErrorCapture.run (map ErrorCapture.Dispatch evs') (ec1', win1)).1;
     e_latest :=
       (ErrorCapture.run (map ErrorCapture.Dispatch evs') (ec2, win1)).1 |}.

(** A click on the send button, which only a render with the panel open
    shows: [handleSend] of the latest render, with the captures that
    render built. *)
Definition send (baseUrl : string) (r : Widget.State) (c : Captures)
    (e : ErrorCaptures) (now : Z) (href agent : string)
  : option (Widget.Script * World) :=
  Widget.handleSend baseUrl r (latest c)
    (ErrorCapture.getError (e_latest e)) now href agent (world c).

End Render.

(** * Properties *)

(** ** The log buffer *)

Section Buffer.
Import ConsoleCapture.

Lemma tail_drop {A} (k : nat) (l : list A) : tail (drop k l) = drop (S k) l.
Proof.
  revert k; induction l as [|x l IH]; intros [|k]; simpl; auto.
Qed.

Lemma pushed_lastn (max : Z) (all : list LogEntry) (e : LogEntry) :
  pushed max (lastn max all) e = lastn max (all ++ [e]).
Proof.
  unfold pushed, lastn, shift.
  rewrite !length_app, length_drop. simpl.
  destruct (Z.gtb_spec
              (Z.of_nat (length all - (length all - Z.to_nat max) + 1)) max)
    as [Hgt|Hle].
  - assert (Hk : (length all - Z.to_nat max <= length all)%nat) by lia.
    rewrite <- (drop_app_le all [e] _ Hk), tail_drop.
    f_equal. lia.
  - assert (Hk : (length all + 1 - Z.to_nat max = 0)%nat) by lia.
    assert (Hk' : (length all - Z.to_nat max = 0)%nat) by lia.
    now rewrite Hk, Hk', !drop_0.
Qed.

Lemma start_wrapped (w : World) : wrapped (start w).
Proof. intros []; simpl; eauto. Qed.

Lemma call_wrapped (this : Instance) (c : Call) (w : World)
    (xs : list LogEntry) :
  wrapped w ->
  heap w !! logs this = Some xs ->
  exists w',
    call this (c_level c) (c_args c) (c_now c) w = Some w'
    /\ wrapped w'
    /\ heap w' = <[logs this := pushed (maxEntries this) xs (entry_of c)]> (heap w)
    /\ next_loc w' = next_loc w
    /\ forwarded w' =
         forwarded w ++ [(slot (c_level c) (originalConsole this), c_args c)].
Proof.
  intros Hw Hx. unfold call.
  destruct (Hw (c_level c)) as [n ->].
  unfold captureLog. rewrite Hx. simpl.
  eexists; split; [reflexivity|].
  repeat split. exact Hw.
Qed.

Lemma calls_wrapped (this : Instance) (cs : list Call) :
  forall (w : World) (before : list LogEntry),
    wrapped w ->
    heap w !! logs this = Some (lastn (maxEntries this) before) ->
    exists w',
      calls this cs w = Some w'
      /\ wrapped w'
      /\ heap w' !! logs this =
           Some (lastn (maxEntries this) (before ++ map entry_of cs))
      /\ next_loc w' = next_loc w
      /\ (forall a, a <> logs this -> heap w' !! a = heap w !! a)
      /\ forwarded w' =
           forwarded w ++
           map (fun c => (slot (c_level c) (originalConsole this), c_args c)) cs.
Proof.
  induction cs as [|c cs IH]; intros w before Hw Hx; simpl.
  - exists w. rewrite !app_nil_r. repeat split; auto.
  - destruct (call_wrapped this c w _ Hw Hx)
      as (w1 & -> & Hw1 & Hh1 & Hn1 & Hf1). simpl.
    destruct (IH w1 (before ++ [entry_of c]) Hw1) as (w2 & E & ? & ? & ? & Hfr & Hf2).
    { rewrite Hh1, lookup_insert_eq. now rewrite pushed_lastn. }
    exists w2. rewrite E. repeat split; auto.
    + now rewrite <- app_assoc in *.
    + congruence.
    + intros a Ha. rewrite (Hfr a Ha), Hh1. now rewrite lookup_insert_ne.
    + rewrite Hf2, Hf1. now rewrite <- app_assoc.
Qed.

End Buffer.

Section FIFO.
Import ConsoleCapture.

Lemma new_spec (arg : option Z) (h : Slots HostFn) :
  exists this w,
    new arg h = (this, w)
    /\ logs this = 0%nat
    /\ maxEntries this = match arg with Some n => n | None => 1000 end
    /\ originalConsole this = h
    /\ heap w !! logs this = Some []
    /\ next_loc w = 1%nat
    /\ console w = lift h
    /\ forwarded w = [].
Proof. do 2 eexists. repeat split. Qed.

Lemma getLogs_copy (this : Instance) (w : World) (xs : list LogEntry) :
  heap w !! logs this = Some xs ->
  getLogs this w = Some (next_loc w, snd (alloc xs w))
  /\ read (next_loc w) (snd (alloc xs w)) = Some xs.
Proof.
  intros Hx. unfold getLogs, read. rewrite Hx. simpl.
  split; [reflexivity|]. now rewrite lookup_insert_eq.
Qed.

Lemma snapshot_after_lastn (arg : option Z) (h : Slots HostFn)
    (cs : list Call) :
  snapshot_after arg h cs =
  Some (lastn (match arg with Some n => n | None => 1000 end)
          (map entry_of cs)).
Proof.
  unfold snapshot_after.
  destruct (new_spec arg h) as (this & w0 & -> & _ & Hm & _ & Hh & _).
  destruct (calls_wrapped this cs (start w0) [] (start_wrapped w0))
    as (w & -> & _ & Hw & _).
  { simpl. rewrite Hh. unfold lastn. now destruct (Z.to_nat _). }
  simpl in *.
  destruct (getLogs_copy this w _ Hw) as [-> Hr]. simpl.
  rewrite <- Hm. exact Hr.
Qed.

(** C1. After [start()], whatever the console calls and their levels,
    [getLogs()] returns the entries of the calls in call order, cut down
    to the last [maxEntries] of them; with a limit of 2 the calls
    log("a"), warn("b"), error("c") leave the entries of "b" and
    "c". *)
Theorem getLogs_last_maxEntries_in_call_order :
  (forall (max : Z) (h : Slots HostFn) (cs : list Call),
      snapshot_after (Some max) h cs = Some (lastn max (map entry_of cs)))
  /\ (forall (h : Slots HostFn) (t1 t2 t3 : Z),
        snapshot_after (Some 2) h
          [console_log "a" t1; console_warn "b" t2; console_error "c" t3]
        = Some [ {| level := warn; message := "b"; timestamp := t2;
                    stack := None |};
                 {| level := error; message := "c"; timestamp := t3;
                    stack := None |} ]).
Proof.
  split.
  - intros max h cs. apply (snapshot_after_lastn (Some max)).
  - intros h t1 t2 t3. now rewrite (snapshot_after_lastn (Some 2)).
Qed.

(** C9, as the specification puts it: a limit of zero or less would act
    as a limit of one.  The code keeps the limit as it is given, and an
    entry is then dropped as soon as it is pushed. *)
Lemma limit_not_clamped :
  ~ (forall (max : Z) (h : Slots HostFn) (cs : list Call),
        max <= 0 ->
        snapshot_after (Some max) h cs =
        snapshot_after (Some (Z.max 1 max)) h cs).
Proof.
  intros H.
  specialize (H 0 native [console_log "a" 0] ltac:(lia)).
  rewrite !snapshot_after_lastn in H. discriminate H.
Qed.

(** C9, amended. With a limit of zero or less every console call is
    still recorded without failure, and [getLogs()] returns an empty
    array after any sequence of calls: the buffer is neither unbounded
    nor of size one. *)
Theorem nonpositive_limit_keeps_nothing (max : Z) (h : Slots HostFn)
    (cs : list Call) :
  max <= 0 -> snapshot_after (Some max) h cs = Some [].
Proof.
  intros Hmax. rewrite snapshot_after_lastn. f_equal.
  unfold lastn. replace (Z.to_nat max) with 0%nat by lia.
  rewrite Nat.sub_0_r. apply drop_all.
Qed.

Lemma nonpositive_limit_keeps_nothing_witness :
  -1 <= 0 /\
  snapshot_after (Some (-1)) native
    [console_log "a" 1; console_error "b" 2] = Some [].
Proof.
  split; [lia|].
  apply (nonpositive_limit_keeps_nothing (-1) native); lia.
Defined.

End FIFO.

(** ** Interception is reversible *)

Section Reversible.
Import ConsoleCapture.

Lemma new_live (arg : option Z) (h : Slots HostFn) : live (new arg h).
Proof. split; simpl; [rewrite lookup_insert_eq; eauto | lia]. Qed.

Lemma run_op_live (op : Op) (st : Instance * World) :
  live st ->
  exists st',
    run_op op st = Some st' /\ live st'
    /\ originalConsole st'.1 = originalConsole st.1
    /\ maxEntries st'.1 = maxEntries st.1.
Proof.
  destruct st as [this w]. intros [[xs Hx] Hlt]. simpl in *.
  destruct op as [| | | |c]; simpl.
  - eexists; repeat split; simpl; eauto.
  - eexists; repeat split; simpl; eauto.
  - eexists; repeat split; simpl; eauto.
    rewrite lookup_insert_eq; eauto.
  - unfold getLogs. rewrite Hx. simpl.
    eexists; repeat split; simpl; eauto.
    rewrite lookup_insert_ne by lia. eauto.
  - unfold call, captureLog. rewrite Hx.
    destruct (slot (c_level c) (console w)); simpl;
      eexists; repeat split; simpl; eauto.
    rewrite lookup_insert_eq; eauto.
Qed.

Lemma run_live (ops : list Op) :
  forall st : Instance * World,
    live st ->
    exists st',
      run ops st = Some st' /\ live st'
      /\ originalConsole st'.1 = originalConsole st.1
      /\ maxEntries st'.1 = maxEntries st.1.
Proof.
  induction ops as [|op ops IH]; intros st Hst; simpl.
  - eauto.
  - destruct (run_op_live op st Hst) as (st1 & -> & H1 & Ho & Hm). simpl.
    destruct (IH st1 H1) as (st2 & E & H2 & Ho2 & Hm2).
    exists st2. repeat split; try apply H2; congruence.
Qed.

(** Calls on a console that holds host functions only go straight to
    them and touch no array. *)
Lemma calls_unwrapped (this : Instance) (h : Slots HostFn) (cs : list Call) :
  forall w : World,
    console w = lift h ->
    exists w',
      calls this cs w = Some w'
      /\ console w' = lift h
      /\ heap w' = heap w
      /\ forwarded w' =
           forwarded w ++ map (fun c => (slot (c_level c) h, c_args c)) cs.
Proof.
  induction cs as [|c cs IH]; intros w Hc; simpl.
  - exists w. now rewrite app_nil_r.
  - unfold call. rewrite Hc.
    assert (E : slot (c_level c) (lift h) = Host (slot (c_level c) h))
      by now destruct (c_level c).
    rewrite E. simpl.
    destruct (IH (forward (slot (c_level c) h) (c_args c) w) Hc)
      as (w' & -> & ? & ? & Hf).
    exists w'. repeat split; auto.
    rewrite Hf. simpl. now rewrite <- app_assoc.
Qed.

(** C5. Build a capture on a page whose console holds the functions [h],
    and let anything happen to it: starts, stops, console calls,
    snapshots, clears.  A [stop()] then puts exactly the functions [h]
    back into the console, not wrappers; the console calls that follow
    change no array, so no entry is added, and the host functions see
    the very calls they see on the page without a capture. *)
Theorem stop_restores_original_console (arg : option Z) (h : Slots HostFn)
    (ops : list Op) (cs : list Call) :
  exists this w w' p,
    run ops (new arg h) = Some (this, w)
    /\ console (stop this w) = lift h
    /\ calls this cs (stop this w) = Some w'
    /\ console w' = lift h
    /\ heap w' = heap w
    /\ calls this cs (page h) = Some p
    /\ forwarded w' = forwarded w ++ forwarded p.
Proof.
  destruct (run_live ops (new arg h) (new_live arg h))
    as ([this w] & E & _ & Ho & _).
  simpl in Ho.
  assert (Hs : console (stop this w) = lift h) by (simpl; now rewrite Ho).
  destruct (calls_unwrapped this h cs (stop this w) Hs)
    as (w' & E1 & ? & ? & Hf1).
  destruct (calls_unwrapped this h cs (page h) eq_refl)
    as (p & E2 & _ & _ & Hf2).
  exists this, w, w', p. repeat split; auto.
  rewrite Hf1, Hf2. reflexivity.
Qed.

End Reversible.

(** ** A report holds a copy of the logs *)

Section Isolation.
Import ConsoleCapture.

(** An array that is not the capture's own and that the allocator has
    already given out is left alone by whatever is done to the capture. *)
Lemma run_op_frame (a : loc) (op : Op) (st st' : Instance * World) :
  run_op op st = Some st' ->
  a <> logs st.1 -> (a < next_loc st.2)%nat ->
  heap st'.2 !! a = heap st.2 !! a
  /\ a <> logs st'.1 /\ (a < next_loc st'.2)%nat.
Proof.
  destruct st as [this w]. simpl. intros E Ha Hlt.
  destruct op as [| | | |c]; simpl in E.
  - inversion E; subst; simpl; auto.
  - inversion E; subst; simpl; auto.
  - inversion E; subst; simpl.
    rewrite lookup_insert_ne by lia. repeat split; lia.
  - unfold getLogs in E.
    destruct (heap w !! logs this) as [xs|]; simpl in E; [|discriminate].
    inversion E; subst; simpl.
    rewrite lookup_insert_ne by lia. repeat split; auto.
  - unfold call, captureLog in E.
    destruct (slot (c_level c) (console w)).
    + inversion E; subst; simpl; auto.
    + destruct (heap w !! logs this) as [xs|]; simpl in E; [|discriminate].
      inversion E; subst; simpl.
      rewrite lookup_insert_ne by auto. auto.
Qed.

Lemma run_frame (a : loc) (ops : list Op) :
  forall st st' : Instance * World,
    run ops st = Some st' ->
    a <> logs st.1 -> (a < next_loc st.2)%nat ->
    heap st'.2 !! a = heap st.2 !! a.
Proof.
  induction ops as [|op ops IH]; intros st st' E Ha Hlt; simpl in E.
  - now inversion E.
  - destruct (run_op op st) as [st1|] eqn:E1; simpl in E; [|discriminate].
    destruct (run_op_frame a op st st1 E1 Ha Hlt) as (H1 & Ha1 & Hlt1).
    rewrite (IH st1 st' E Ha1 Hlt1). exact H1.
Qed.

(** The copy that [getLogs] hands to a send.  For whichever capture the
    handler is given, holding [es] when the send begins: the report
    refers to a new array with the content [es], and the body handed to
    [fetch] lists [es].  An entry recorded afterwards goes to the array
    of the capture only; and whatever is done to the capture before the
    request settles, the array of the report still holds [es] and would
    be written out as the same body.  Which capture the handler of a
    render is given is the subject of [Render]. *)
Lemma getLogs_copy_is_isolated (baseUrl : string) (r : Widget.State)
    (cc : Instance) (err : option Types.ErrorInfo) (now : Z)
    (href agent : string) (w : World) (es : list LogEntry) :
  heap w !! logs cc = Some es ->
  (logs cc < next_loc w)%nat ->
  exists data script w1 body,
    Widget.report r cc err now href agent w = Some (data, w1)
    /\ Widget.handleSend baseUrl r cc err now href agent w = Some (script, w1)
    /\ Widget.requests script =
         [APIClient.PostDebug (baseUrl +:+ "/api/debug") body]
    /\ APIClient.logs body = es
    /\ APIClient.r_logs data <> logs cc
    /\ (forall l args t,
           exists w2,
             captureLog cc l args t w1 = Some w2
             /\ read (logs cc) w2 =
                  Some (pushed (maxEntries cc) es (make_entry l args t))
             /\ read (APIClient.r_logs data) w2 = Some es
             /\ APIClient.serialize w2 data = Some body)
    /\ (forall ops cc' w2,
           run ops (cc, w1) = Some (cc', w2) ->
           read (APIClient.r_logs data) w2 = Some es
           /\ APIClient.serialize w2 data = Some body).
Proof.
  intros Hx Hlt.
  destruct (getLogs_copy cc w es Hx) as [Hg Hr].
  unfold Widget.handleSend, Widget.report,
    APIClient.submitDebugReport_request, APIClient.serialize.
  rewrite Hg. simpl. unfold read in *. simpl in *. rewrite Hr. simpl.
  do 4 eexists. split; [reflexivity|]. split; [reflexivity|].
  split; [reflexivity|]. split; [reflexivity|]. simpl.
  split; [lia|]. split.
  - intros l args t. unfold captureLog. simpl.
    rewrite lookup_insert_ne by lia. rewrite Hx. simpl.
    eexists. split; [reflexivity|]. simpl.
    rewrite lookup_insert_eq. split; [reflexivity|].
    rewrite lookup_insert_ne by lia. rewrite Hr. auto.
  - intros ops cc' w2 E.
    pose proof (run_frame (next_loc w) ops _ _ E) as Hf. simpl in Hf.
    rewrite Hf by lia. rewrite Hr. auto.
Qed.

End Isolation.

(** ** One reconnection timer *)

Section Reconnect.
Import WebSocketClient.
Context {R : Type}.

Lemma clearTimeout_only (h : Timer) (d : Z) (e : Loop) :
  timers e = [(h, d)] -> timers (clearTimeout h e) = [].
Proof.
  intros Ht. simpl. rewrite Ht, filter_cons, decide_False; auto.
Qed.

Lemma truthy_remembered (c : Client R) (e : Loop) :
  single_timer (c, e) ->
  truthy (reconnectTimeout c) = true <-> timers e <> [].
Proof.
  intros [Ht Hz]. simpl in *. rewrite Ht.
  destruct (reconnectTimeout c) as [[|h]|]; simpl; split;
    congruence || auto.
Qed.

Lemma scheduleReconnect_single (c : Client R) (e : Loop) :
  single_timer (c, e) ->
  single_timer (scheduleReconnect c e)
  /\ (exists h, timers (scheduleReconnect c e).2 = [(h, 5000)])
  /\ attempts (scheduleReconnect c e).2 = attempts e
  /\ sockets (scheduleReconnect c e).2 = sockets e.
Proof.
  intros [Ht Hz]. simpl in *. unfold scheduleReconnect.
  destruct (reconnectTimeout c) as [[|h]|] eqn:E; simpl.
  - now destruct Hz.
  - repeat split; simpl; rewrite ?E; eauto.
  - rewrite Ht. repeat split; simpl; eauto.
Qed.

Lemma connect_single (throws : bool) (c : Client R) (e : Loop) :
  single_timer (c, e) -> single_timer (connect throws c e).
Proof.
  intros H. unfold connect. destruct throws.
  - apply scheduleReconnect_single. exact H.
  - exact H.
Qed.

Lemma disconnect_single (c : Client R) (e : Loop) :
  single_timer (c, e) -> single_timer (disconnect c e).
Proof.
  intros [Ht Hz]. simpl in *. unfold disconnect.
  destruct (reconnectTimeout c) as [[|h]|] eqn:E; simpl.
  - now destruct Hz.
  - pose proof (clearTimeout_only _ _ _ Ht) as Hc.
    destruct (ws c); split; simpl; try congruence; exact Hc.
  - rewrite E. destruct (ws c); split; simpl; rewrite ?E; auto.
Qed.

Lemma fire_single (h : Timer) (throws : bool) (c : Client R) (e : Loop) :
  single_timer (c, e) ->
  existsb (fun t => Nat.eqb (fst t) h) (timers e) = true ->
  reconnectTimeout c = Some h
  /\ timers (clearTimeout h e) = []
  /\ single_timer (timer_callback throws c (clearTimeout h e)).
Proof.
  intros [Ht Hz] Hin. simpl in *. rewrite Ht in Hin.
  destruct (reconnectTimeout c) as [h'|] eqn:E; simpl in Hin; [|discriminate].
  rewrite orb_false_r in Hin. apply Nat.eqb_eq in Hin. subst h'.
  pose proof (clearTimeout_only _ _ _ Ht) as Hc.
  repeat split; auto.
  all: unfold timer_callback; apply connect_single; split; simpl;
    auto; congruence.
Qed.

Lemma step_single (ev : Event) (st st' : Client R * Loop) :
  single_timer st -> step ev st = Some st' -> single_timer st'.
Proof.
  destruct st as [c e]. intros H E.
  destruct ev as [throws| |s|h throws]; simpl in E.
  - inversion E. now apply connect_single.
  - inversion E. now apply disconnect_single.
  - destruct (Nat.ltb s (sockets e)); inversion E.
    now apply scheduleReconnect_single.
  - destruct (existsb (fun t => Nat.eqb (fst t) h) (timers e)) eqn:Hin;
      inversion E.
    now apply fire_single.
Qed.

Lemma run_single (evs : list Event) :
  forall st st' : Client R * Loop,
    single_timer st -> run evs st = Some st' -> single_timer st'.
Proof.
  induction evs as [|ev evs IH]; intros st st' H E; simpl in E.
  - now inversion E; subst.
  - destruct (step ev st) as [st1|] eqn:E1; simpl in E; [|discriminate].
    eapply IH; [|exact E]. eapply step_single; eauto.
Qed.

Lemma closes_single (ss : list Socket) :
  forall st st' : Client R * Loop,
    single_timer st -> ss <> [] ->
    run (map Close ss) st = Some st' ->
    single_timer st'
    /\ (exists h, timers st'.2 = [(h, 5000)])
    /\ attempts st'.2 = attempts st.2.
Proof.
  induction ss as [|s ss IH]; intros [c e] st' H Hne E; [congruence|].
  simpl in E. destruct (Nat.ltb s (sockets e)); simpl in E; [|discriminate].
  destruct (scheduleReconnect_single c e H) as (H1 & Hh & Ha & _).
  destruct ss as [|s' ss].
  - simpl in E. inversion E; subst. auto.
  - destruct (IH (scheduleReconnect c e) st' H1 ltac:(congruence) E)
      as (H2 & Hh2 & Ha2).
    split; [exact H2|]. split; [exact Hh2|]. simpl. congruence.
Qed.

Lemma new_single : single_timer (@new R).
Proof. split; simpl; congruence. Qed.

(** C3. At every point of every run of the client at most one timer is
    pending, and a request to schedule while one is pending changes
    nothing.  After any number (one, two or more) of close events in a
    row exactly one timer is pending, with a delay of 5000 ms, and no
    connection attempt has been made yet; that timer is the only one
    that can fire, and its firing makes exactly one attempt. *)
Theorem at_most_one_reconnect_timer (evs : list Event)
    (st : Client R * Loop) :
  run evs new = Some st ->
  (length (timers st.2) <= 1)%nat
  /\ (timers st.2 <> [] -> scheduleReconnect st.1 st.2 = st)
  /\ (forall (ss : list Socket) (st' : Client R * Loop),
        ss <> [] ->
        run (map Close ss) st = Some st' ->
        exists h,
          timers st'.2 = [(h, 5000)]
          /\ attempts st'.2 = attempts st.2
          /\ forall h' throws,
               match step (Fire h' throws) st' with
               | Some st'' =>
                   h' = h
                   /\ attempts st''.2 = S (attempts st.2)
                   /\ (throws = false -> timers st''.2 = [])
               | None => h' <> h
               end).
Proof.
  intros E. pose proof (run_single evs _ _ new_single E) as H.
  split; [|split].
  - destruct H as [Ht _]. rewrite Ht.
    destruct (reconnectTimeout st.1); simpl; lia.
  - destruct st as [c e]. intros Hne. simpl.
    apply (truthy_remembered c e H) in Hne.
    unfold scheduleReconnect. now rewrite Hne.
  - intros ss st' Hne E'.
    destruct (closes_single ss st st' H Hne E') as (H' & [h Hh] & Ha).
    exists h. split; [exact Hh|]. split; [exact Ha|].
    intros h' throws. destruct st' as [c' e']. simpl in *.
    rewrite Hh. simpl. rewrite orb_false_r.
    destruct (Nat.eqb_spec h h') as [->|Hd].
    + split; [reflexivity|].
      pose proof (clearTimeout_only _ _ _ Hh) as Hc.
      unfold timer_callback, connect. destruct throws; simpl.
      * split; [|discriminate]. unfold scheduleReconnect. simpl.
        now rewrite Ha.
      * split; [now rewrite Ha|]. intros _. exact Hc.
    + congruence.
Qed.

End Reconnect.

(** After a first connection, two close events in a row. *)
Lemma at_most_one_reconnect_timer_witness :
  WebSocketClient.run
    [WebSocketClient.Connect false]
    (@WebSocketClient.new unit)
  = Some (WebSocketClient.connect false
            (@WebSocketClient.new unit).1 (@WebSocketClient.new unit).2)
  /\ exists st',
      WebSocketClient.run
        (map WebSocketClient.Close [0%nat; 0%nat])
        (WebSocketClient.connect false
           (@WebSocketClient.new unit).1 (@WebSocketClient.new unit).2)
      = Some st'
      /\ WebSocketClient.timers st'.2 = [(1%nat, 5000)]
      /\ WebSocketClient.attempts st'.2 = 1%nat.
Proof.
  split; [reflexivity|].
  destruct (at_most_one_reconnect_timer (R := unit)
              [WebSocketClient.Connect false] _ eq_refl)
    as (_ & _ & H).
  eexists. split; [reflexivity|].
  destruct (H [0%nat; 0%nat] _ ltac:(discriminate) eq_refl)
    as (h & Hh & Ha & _).
  split; [reflexivity | exact Ha].
Defined.

(** ** The interaction controller *)

Section Controller.
Import Types Widget.

Lemma handleSend_script (baseUrl : string) (r : State)
    (cc : ConsoleCapture.Instance) (err : option ErrorInfo) (now : Z)
    (href agent : string) (w w1 : ConsoleCapture.World) (script : Script) :
  handleSend baseUrl r cc err now href agent w = Some (script, w1) ->
  at_once script = [SetIsSending true; SetStatus "Sending..."]
  /\ (exists body,
        requests script = [APIClient.PostDebug (baseUrl +:+ "/api/debug") body]
        /\ APIClient.mode body = debugMode r
        /\ APIClient.comment body = comment r)
  /\ forall f,
       settled script f =
       match APIClient.submitDebugReport_settle f with
       | APIClient.Returns response => sent r now response
       | APIClient.Throws e => send_failed e
       end ++ [SetIsSending false].
Proof.
  unfold handleSend. intros E.
  unfold report in E.
  destruct (ConsoleCapture.getLogs cc w) as [[a w']|];
    simpl in E; [|discriminate].
  unfold APIClient.submitDebugReport_request, APIClient.serialize in E.
  simpl in E.
  destruct (ConsoleCapture.read a w') as [xs|]; simpl in E; [|discriminate].
  inversion E; subst. simpl. split; [reflexivity|]. split; [|reflexivity].
  eexists. split; [reflexivity|]. split; reflexivity.
Qed.

Lemma handleSend_live (baseUrl : string) (r : State)
    (cc : ConsoleCapture.Instance) (err : option ErrorInfo) (now : Z)
    (href agent : string) (w : ConsoleCapture.World) :
  is_Some (ConsoleCapture.heap w !! ConsoleCapture.logs cc) ->
  is_Some (handleSend baseUrl r cc err now href agent w).
Proof.
  intros [xs Hx].
  destruct (getLogs_copy cc w xs Hx) as [Hg Hr].
  unfold handleSend, report, APIClient.submitDebugReport_request,
    APIClient.serialize.
  rewrite Hg. simpl. unfold ConsoleCapture.read in *. simpl in *.
  rewrite Hr. simpl. eauto.
Qed.

(** C6. A send in backlog mode never sets the waiting flag: not when it
    starts, and not when it settles, whatever the peer answers.  On
    every successful answer the flag is what it was, sending is over and
    the status reads "Added to backlog"; on a failure the flag is
    cleared.  A successful send in wait mode does set the flag. *)
Theorem backlog_send_never_awaits (baseUrl : string) (r : State)
    (cc : ConsoleCapture.Instance) (err : option ErrorInfo) (now : Z)
    (href agent : string) (w : ConsoleCapture.World) :
  is_Some (ConsoleCapture.heap w !! ConsoleCapture.logs cc) ->
  exists script w1,
  handleSend baseUrl r cc err now href agent w = Some (script, w1)
  /\ (exists body,
      requests script = [APIClient.PostDebug (baseUrl +:+ "/api/debug") body]
      /\ APIClient.mode body = debugMode r)
  /\ (debugMode r = backlog ->
   forall (u : State * Storage),
     isWaitingForResponse (perform (at_once script) u).1
     = isWaitingForResponse u.1
     /\ forall f : APIClient.Fetched,
         let u' := perform (settled script f) u in
         (isWaitingForResponse u'.1 = true ->
          isWaitingForResponse u.1 = true)
         /\ isSending u'.1 = false
         /\ match APIClient.submitDebugReport_settle f with
            | APIClient.Returns _ =>
                isWaitingForResponse u'.1 = isWaitingForResponse u.1
                /\ status u'.1 = "Added to backlog"
            | APIClient.Throws _ => isWaitingForResponse u'.1 = false
            end)
  /\ (debugMode r = wait ->
      forall (u : State * Storage) (f : APIClient.Fetched) response,
        APIClient.submitDebugReport_settle f = APIClient.Returns response ->
        let u' := perform (settled script f) u in
        isWaitingForResponse u'.1 = true
        /\ status u'.1 = "Waiting for response...").
Proof.
  intros Hlive.
  destruct (handleSend_live baseUrl r cc err now href agent w Hlive)
    as [[script w1] E].
  exists script, w1. split; [exact E|].
  destruct (handleSend_script _ _ _ _ _ _ _ _ _ _ E)
    as (Ha & (body & Hb & Hbm & _) & Hs).
  split; [exists body; auto|]. split.
  - intros Hm [s store]. rewrite Ha. split; [reflexivity|].
    intros f. rewrite Hs.
    destruct (APIClient.submitDebugReport_settle f) as [response|e].
    + unfold sent. rewrite Hm.
      generalize (newSession r now response); intros ns. cbv. auto.
    + cbv. repeat split; auto. discriminate.
  - intros Hm [s store] f response Hf. rewrite Hs, Hf.
    unfold sent. rewrite Hm.
    generalize (newSession r now response); intros ns. cbv. auto.
Qed.

(** C8. When the call of the client throws, be it because [fetch]
    rejected or because the peer answered with a status that is not ok,
    the handler leaves the comment as it is, shows the error in the
    status line, and ends with the sending and waiting flags cleared;
    neither the screenshot nor the session list nor the storage is
    touched.  It is a successful send that empties the comment. *)
Theorem failed_send_keeps_comment (baseUrl : string) (r : State)
    (cc : ConsoleCapture.Instance) (err : option ErrorInfo) (now : Z)
    (href agent : string) (w : ConsoleCapture.World) :
  is_Some (ConsoleCapture.heap w !! ConsoleCapture.logs cc) ->
  exists script w1,
  handleSend baseUrl r cc err now href agent w = Some (script, w1)
  /\ (forall e, APIClient.submitDebugReport_settle (APIClient.Rejects e)
             = APIClient.Throws e)
  /\ (forall statusText body,
        APIClient.submitDebugReport_settle
          (APIClient.Response false statusText body)
        = APIClient.Throws
            {| Js.thrown_name := "Error";
               Js.thrown_message :=
                 "Failed to submit debug report: " +:+ statusText |})
  /\ (forall (u : State * Storage),
        comment (perform (at_once script) u).1 = comment u.1)
  /\ (forall (u : State * Storage) (f : APIClient.Fetched),
        let u' := perform (settled script f) u in
        match APIClient.submitDebugReport_settle f with
        | APIClient.Throws e =>
            comment u'.1 = comment u.1
            /\ status u'.1 = "Error: " +:+ Js.Thrown_toString e
            /\ isSending u'.1 = false
            /\ isWaitingForResponse u'.1 = false
            /\ screenshot u'.1 = screenshot u.1
            /\ sessions u'.1 = sessions u.1
            /\ u'.2 = u.2
        | APIClient.Returns _ => comment u'.1 = ""
        end).
Proof.
  intros Hlive.
  destruct (handleSend_live baseUrl r cc err now href agent w Hlive)
    as [[script w1] E].
  exists script, w1. split; [exact E|].
  destruct (handleSend_script _ _ _ _ _ _ _ _ _ _ E) as (Ha & _ & Hs).
  split; [reflexivity|]. split; [reflexivity|]. split.
  - intros [s store]. now rewrite Ha.
  - intros [s store] f. rewrite Hs.
    destruct (APIClient.submitDebugReport_settle f) as [response|e].
    + unfold sent. generalize (newSession r now response); intros ns.
      destruct (debugMode r); cbv; reflexivity.
    + cbv. repeat split.
Qed.

(** C7. A message of type questions that reaches the client on which
    the widget registered its callback is delivered to it, and in
    whatever state the widget is, waiting or not, the state afterwards
    has the session id and the questions of the message, no answers, the
    first question as the current one, the waiting flag cleared and the
    status "Questions received" in place of the former one; the rest
    of the state is as before. *)
Theorem questions_preempt_waiting (c : WebSocketClient.Client (list Action))
    (sid : string) (qs : list Question) (s : State) (store : Storage) :
  exists acts s',
    WebSocketClient.onmessage
      (WebSocketClient.onQuestions onQuestions c)
      (WebSocketClient.Parsed (Some "questions")
         (Some {| d_sessionId := sid; d_questions := qs |}))
    = WebSocketClient.Delivered acts
    /\ perform acts (s, store) = (s', store)
    /\ sessionId s' = Some sid
    /\ questions s' = qs
    /\ answers s' = []
    /\ currentStep s' = 0
    /\ isWaitingForResponse s' = false
    /\ status s' = "Questions received"
    /\ comment s' = comment s
    /\ screenshot s' = screenshot s
    /\ sessions s' = sessions s
    /\ isSending s' = isSending s
    /\ debugMode s' = debugMode s.
Proof.
  do 2 eexists. split; [reflexivity|]. split; [cbv; reflexivity|].
  cbv. repeat split.
Qed.

(** C10. Without a session id [handleSubmitAnswers] returns at once: it
    issues no request, and whatever state and storage there are when it
    runs, and however a request would have settled, they are the same
    afterwards. *)
Theorem submit_without_session_is_noop (baseUrl : string) (r : State) :
  sessionId r = None ->
  handleSubmitAnswers baseUrl r = Done []
  /\ requests (handleSubmitAnswers baseUrl r) = []
  /\ forall (u : State * Storage) (f : APIClient.Fetched),
       perform (at_once (handleSubmitAnswers baseUrl r)
                ++ settled (handleSubmitAnswers baseUrl r) f) u = u.
Proof.
  intros H. unfold handleSubmitAnswers. rewrite H. simpl. auto.
Qed.

(** C2. The first of two questions is a required text question and
    nothing has been typed: the modal shows Next, and its handler moves
    on to the second question.  The handler does not read [required].
    With a text typed in, Next moves on as well. *)
Theorem Next_advances_past_unanswered_required_question :
  let q1 := {| q_id := "q1"; q_text := "Why?"; q_type := text;
               q_options := None; q_required := true |} in
  let q2 := {| q_id := "q2"; q_text := "When?"; q_type := text;
               q_options := None; q_required := false |} in
  let u := perform (onQuestions "s1" [q1; q2]) (initial "" wait [], None) in
  current u.1 = Some q1
  /\ get (q_id q1) (answers u.1) = None
  /\ buttons u.1 = [Next]
  /\ currentStep u.1 = 0
  /\ currentStep
       (perform (at_once (onClick "http://localhost:4000" u.1 Next)) u).1 = 1
  /\ exists acts,
      onInput u.1 "because" = Some acts
      /\ let u' := perform acts u in
         shown_answer u'.1 q1 = "because"
         /\ buttons u'.1 = [Next]
         /\ currentStep
              (perform (at_once (onClick "http://localhost:4000" u'.1 Next))
                 u').1 = 1.
Proof.
  cbv zeta. repeat split; try (cbv; reflexivity).
  eexists. split; [cbv; reflexivity|]. cbv. repeat split.
Qed.

End Controller.

(** A send in backlog mode from a widget on a page with the native console. *)
Lemma backlog_send_never_awaits_witness :
  let r := Widget.initial "" Types.backlog [] in
  let cw := ConsoleCapture.new (Some 2) ConsoleCapture.native in
  is_Some (ConsoleCapture.heap cw.2 !! ConsoleCapture.logs cw.1)
  /\ exists script w1,
      Widget.handleSend "http://localhost:4000" r cw.1 None 1000
        "http://localhost/" "agent" cw.2 = Some (script, w1)
      /\ exists body,
          Widget.requests script =
            [APIClient.PostDebug ("http://localhost:4000" +:+ "/api/debug") body]
          /\ APIClient.mode body = Widget.debugMode r.
Proof.
  intros r cw.
  assert (Hlive : is_Some (ConsoleCapture.heap cw.2 !! ConsoleCapture.logs cw.1))
    by (exists []; reflexivity).
  split; [exact Hlive|].
  destruct (backlog_send_never_awaits "http://localhost:4000" r cw.1 None
              1000 "http://localhost/" "agent" cw.2 Hlive)
    as (script & w1 & E & Hb & _).
  exists script, w1. split; [exact E | exact Hb].
Defined.

(** A send with a comment typed in. *)
Lemma failed_send_keeps_comment_witness :
  let r := (Widget.perform [Widget.SetComment "it broke"]
              (Widget.initial "" Types.wait [], None)).1 in
  let cw := ConsoleCapture.new (Some 2) ConsoleCapture.native in
  is_Some (ConsoleCapture.heap cw.2 !! ConsoleCapture.logs cw.1)
  /\ exists script w1,
      Widget.handleSend "http://localhost:4000" r cw.1 None 1000
        "http://localhost/" "agent" cw.2 = Some (script, w1)
      /\ forall u : Widget.State * Widget.Storage,
           Widget.comment (Widget.perform (Widget.at_once script) u).1
           = Widget.comment u.1.
Proof.
  intros r cw.
  assert (Hlive : is_Some (ConsoleCapture.heap cw.2 !! ConsoleCapture.logs cw.1))
    by (exists []; reflexivity).
  split; [exact Hlive|].
  destruct (failed_send_keeps_comment "http://localhost:4000" r cw.1 None
              1000 "http://localhost/" "agent" cw.2 Hlive)
    as (script & w1 & E & _ & _ & Hc & _).
  exists script, w1. split; [exact E | exact Hc].
Defined.

(** The first render has no session. *)
Lemma submit_without_session_is_noop_witness :
  Widget.sessionId (Widget.initial "" Types.wait []) = None
  /\ Widget.handleSubmitAnswers "http://localhost:4000"
       (Widget.initial "" Types.wait []) = Widget.Done [].
Proof.
  split; [reflexivity|].
  exact (proj1 (submit_without_session_is_noop "http://localhost:4000"
                  (Widget.initial "" Types.wait []) eq_refl)).
Defined.

(** * Further properties *)

(** ** The capture, over start, stop and clear *)

Section Capture.
Import ConsoleCapture Interception.

Lemma run_invokes (this : Instance) (cs : list Call) (rest : list Op) :
  forall w : World,
    run (map Invoke cs ++ rest) (this, w) =
    w' ← calls this cs w; run rest (this, w').
Proof.
  induction cs as [|c cs IH]; intros w; simpl; [reflexivity|].
  destruct (call this (c_level c) (c_args c) (c_now c) w) as [w1|]; simpl;
    [apply IH | reflexivity].
Qed.

(** Of the console calls made before [start()], between [start()] and
    [stop()], and after [stop()], the buffer holds entries for the middle
    ones only, while every call of the three groups reaches the original
    function of its level, once, with its arguments, in call order. *)
Theorem records_only_between_start_and_stop (max : Z) (h : Slots HostFn)
    (cs0 cs1 cs2 : list Call) :
  exists this w,
    run (map Invoke cs0 ++ [Start] ++ map Invoke cs1 ++ [Stop]
         ++ map Invoke cs2) (new (Some max) h) = Some (this, w)
    /\ read (logs this) w = Some (lastn max (map entry_of cs1))
    /\ forwarded w = map (passed_on h) (cs0 ++ cs1 ++ cs2).
Proof.
  destruct (new_spec (Some max) h)
    as (this & w0 & E & _ & Hm & Ho & Hh & _ & Hc & Hf).
  rewrite E. exists this.
  destruct (calls_unwrapped this h cs0 w0 Hc) as (w1 & E1 & Hc1 & Hh1 & Hf1).
  destruct (calls_wrapped this cs1 (start w1) [] (start_wrapped w1))
    as (w2 & E2 & _ & Hh2 & _ & _ & Hf2).
  { simpl. rewrite Hh1, Hh. unfold lastn. now destruct (Z.to_nat _). }
  assert (Hs : console (stop this w2) = lift h) by (simpl; now rewrite Ho).
  destruct (calls_unwrapped this h cs2 (stop this w2) Hs)
    as (w3 & E3 & _ & Hh3 & Hf3).
  exists w3. split; [|split].
  - rewrite run_invokes, E1. simpl.
    etransitivity; [apply (run_invokes this cs1 (Stop :: map Invoke cs2))|].
    rewrite E2. simpl.
    rewrite <- (app_nil_r (map Invoke cs2)), run_invokes, E3. reflexivity.
  - unfold read. rewrite Hh3. simpl. rewrite Hh2, Hm. reflexivity.
  - rewrite Hf3. simpl. rewrite Hf2. simpl. rewrite Hf1, Hf, Ho.
    simpl. unfold passed_on. now rewrite !map_app, <- !app_assoc.
Qed.

Lemma run_starts (this : Instance) (k : nat) (rest : list Op) :
  forall w : World,
    run (repeat Start k ++ rest) (this, w) = run rest (this, Nat.iter k start w).
Proof.
  induction k as [|k IH]; intros w; simpl; [reflexivity|].
  rewrite IH. f_equal. f_equal. clear IH.
  induction k as [|k IH]; simpl; [reflexivity | now rewrite IH].
Qed.

Lemma starts_keep_heap (k : nat) (w : World) :
  heap (Nat.iter k start w) = heap w
  /\ forwarded (Nat.iter k start w) = forwarded w.
Proof. induction k as [|k IH]; simpl; auto. Qed.

(** However often [start()] is called before the calls, each call leaves
    one entry and reaches the original function once: a wrapper hands on
    to the functions read at construction, not to an earlier wrapper. *)
Theorem repeated_start_records_once (max : Z) (h : Slots HostFn) (k : nat)
    (cs : list Call) :
  exists this w,
    run (repeat Start (S k) ++ map Invoke cs) (new (Some max) h)
    = Some (this, w)
    /\ read (logs this) w = Some (lastn max (map entry_of cs))
    /\ forwarded w = map (passed_on h) cs.
Proof.
  destruct (new_spec (Some max) h)
    as (this & w0 & E & _ & Hm & Ho & Hh & _ & Hc & Hf).
  rewrite E. exists this.
  destruct (starts_keep_heap k w0) as [Hk Hkf].
  destruct (calls_wrapped this cs (start (Nat.iter k start w0)) []
              (start_wrapped _))
    as (w & Ec & _ & Hw & _ & _ & Hfw).
  { simpl. rewrite Hk, Hh. unfold lastn. now destruct (Z.to_nat _). }
  exists w. split; [|split].
  - rewrite run_starts. simpl.
    rewrite <- (app_nil_r (map Invoke cs)), run_invokes, Ec. reflexivity.
  - unfold read. now rewrite Hw, Hm.
  - rewrite Hfw. simpl. now rewrite Hkf, Hf, Ho.
Qed.

Lemma pushed_bounded (max : Z) (xs : list LogEntry) (e : LogEntry) :
  Z.of_nat (length xs) <= Z.max 0 max ->
  Z.of_nat (length (pushed max xs e)) <= Z.max 0 max.
Proof.
  intros H. unfold pushed, shift. rewrite length_app. simpl.
  destruct (Z.gtb_spec (Z.of_nat (length xs + 1)) max).
  - destruct xs; simpl in *; [lia|]. rewrite length_app. simpl. lia.
  - rewrite length_app. simpl. lia.
Qed.

Lemma run_op_bounded (op : Op) (st : Instance * World) :
  (exists xs, heap st.2 !! logs st.1 = Some xs
              /\ Z.of_nat (length xs) <= Z.max 0 (maxEntries st.1)) ->
  exists st',
    run_op op st = Some st'
    /\ exists xs, heap st'.2 !! logs st'.1 = Some xs
                  /\ Z.of_nat (length xs) <= Z.max 0 (maxEntries st'.1).
Proof.
  destruct st as [this w]. simpl. intros (xs & Hx & Hb).
  destruct op as [| | | |c]; simpl.
  - eexists. split; [reflexivity|]. simpl. eauto.
  - eexists. split; [reflexivity|]. simpl. eauto.
  - eexists. split; [reflexivity|]. simpl. exists [].
    rewrite lookup_insert_eq. split; [reflexivity | simpl; lia].
  - unfold getLogs. rewrite Hx. simpl.
    eexists. split; [reflexivity|]. simpl.
    destruct (decide (next_loc w = logs this)) as [->|Hne].
    + rewrite lookup_insert_eq. eauto.
    + rewrite lookup_insert_ne by auto. eauto.
  - unfold call, captureLog. rewrite Hx.
    destruct (slot (c_level c) (console w)); simpl.
    + eexists. split; [reflexivity|]. simpl. eauto.
    + eexists. split; [reflexivity|]. simpl.
      rewrite lookup_insert_eq. eexists. split; [reflexivity|].
      now apply pushed_bounded.
Qed.

(** Whatever is done with a capture (starts, stops, calls, snapshots,
    clears), its array never holds more entries than the limit, and none
    when the limit is zero or less. *)
Theorem buffer_never_exceeds_limit (arg : option Z) (h : Slots HostFn)
    (ops : list Op) :
  exists this w xs,
    run ops (new arg h) = Some (this, w)
    /\ read (logs this) w = Some xs
    /\ Z.of_nat (length xs) <= Z.max 0 (maxEntries this).
Proof.
  assert (H : exists xs,
             heap (new arg h).2 !! logs (new arg h).1 = Some xs
             /\ Z.of_nat (length xs) <= Z.max 0 (maxEntries (new arg h).1)).
  { exists []. simpl. rewrite lookup_insert_eq. split; [reflexivity|lia]. }
  revert H. generalize (new arg h) as st.
  induction ops as [|op ops IH]; intros [this w] H.
  - destruct H as (xs & Hx & Hb). exists this, w, xs. auto.
  - destruct (run_op_bounded op (this, w) H) as (st' & E & H').
    change (run (op :: ops) (this, w))
      with (st1 ← run_op op (this, w); run ops st1).
    rewrite E. apply IH, H'.
Qed.

(** After [clear()] the buffer holds the calls made since, cut to the
    limit; what was recorded before plays no part. *)
Theorem clear_starts_afresh (max : Z) (h : Slots HostFn)
    (cs1 cs2 : list Call) :
  exists this w,
    run (Start :: map Invoke cs1 ++ Clear :: map Invoke cs2)
      (new (Some max) h) = Some (this, w)
    /\ read (logs this) w = Some (lastn max (map entry_of cs2))
    /\ forwarded w = map (passed_on h) (cs1 ++ cs2).
Proof.
  destruct (new_spec (Some max) h)
    as (this & w0 & E & _ & Hm & Ho & Hh & _ & Hc & Hf).
  rewrite E.
  destruct (calls_wrapped this cs1 (start w0) [] (start_wrapped w0))
    as (w1 & E1 & Hw1 & _ & _ & _ & Hf1).
  { simpl. rewrite Hh. unfold lastn. now destruct (Z.to_nat _). }
  destruct (clear this w1) as [this' w2] eqn:Ecl.
  unfold clear in Ecl. simpl in Ecl. inversion Ecl as [[Hthis Hw2]].
  assert (Hwr : wrapped w2) by (rewrite <- Hw2; exact Hw1).
  destruct (calls_wrapped this' cs2 w2 [] Hwr)
    as (w3 & E3 & _ & Hh3 & _ & _ & Hf3).
  { rewrite <- Hw2, <- Hthis. simpl. rewrite lookup_insert_eq.
    unfold lastn. now destruct (Z.to_nat _). }
  exists this', w3. split; [|split].
  - simpl. etransitivity;
      [apply (run_invokes this cs1 (Clear :: map Invoke cs2))|].
    rewrite E1. simpl. unfold clear. simpl. rewrite Hthis, Hw2.
    rewrite <- (app_nil_r (map Invoke cs2)), run_invokes, E3. reflexivity.
  - unfold read. rewrite Hh3. rewrite <- Hthis. simpl. now rewrite Hm.
  - rewrite Hf3, <- Hw2. simpl. rewrite Hf1. simpl. rewrite Hf.
    rewrite <- Hthis. simpl. rewrite Ho. unfold passed_on.
    now rewrite map_app.
Qed.

(** An entry has a stack exactly when the call is on the error channel
    and its first argument is an error object with a stack, which is then
    the stack of the entry. *)
Theorem stack_only_from_error_object (l : Level) (args : list Js.Value)
    (now : Z) (st : string) :
  stack (make_entry l args now) = Some st <->
  l = error
  /\ exists o rest,
       args = Js.VObject o :: rest /\ Js.o_error o = Some (Some st).
Proof.
  split.
  - destruct l; simpl; try discriminate.
    destruct args as [|[s|s|o] rest]; simpl; try discriminate.
    destruct (Js.o_error o) as [[st'|]|] eqn:Eo; try discriminate.
    intros [= ->]. split; [reflexivity|]. eauto.
  - intros (-> & o & rest & -> & Ho). simpl. now rewrite Ho.
Qed.

Lemma append_assoc (a b c : string) : (a +:+ b) +:+ c = a +:+ (b +:+ c).
Proof.
  induction a as [|x a IH]; [reflexivity|].
  change (String x ((a +:+ b) +:+ c) = String x (a +:+ b +:+ c)).
  now f_equal.
Qed.

Lemma join_app (sep : string) (xs ys : list (option string)) :
  xs <> [] -> ys <> [] ->
  Js.join sep (xs ++ ys) = Js.join sep xs +:+ sep +:+ Js.join sep ys.
Proof.
  intros Hx Hy. induction xs as [|x xs IH]; [congruence|].
  destruct xs as [|x' xs].
  - simpl. destruct ys; [congruence | reflexivity].
  - change (Js.join sep ((x :: x' :: xs) ++ ys))
      with (Js.join_elt x +:+ sep +:+ Js.join sep ((x' :: xs) ++ ys)).
    rewrite IH by congruence.
    change (Js.join sep (x :: x' :: xs))
      with (Js.join_elt x +:+ sep +:+ Js.join sep (x' :: xs)).
    now rewrite !append_assoc.
Qed.

(** The message of a call with the arguments [a ++ b], neither empty, is
    the message of [a], one space, and the message of [b]: arguments are
    rendered one by one and joined by single spaces. *)
Theorem message_of_arguments_in_sequence (l : Level) (a b : list Js.Value)
    (now : Z) :
  a <> [] -> b <> [] ->
  message (make_entry l (a ++ b) now) =
  message (make_entry l a now) +:+ " " +:+ message (make_entry l b now).
Proof.
  intros Ha Hb. simpl. rewrite map_app. apply join_app.
  - destruct a; [congruence | discriminate].
  - destruct b; [congruence | discriminate].
Qed.

Lemma message_of_arguments_in_sequence_witness :
  [Js.VString "GET"] <> [] /\ [Js.VPrimitive "404"] <> [] /\
  message (make_entry warn [Js.VString "GET"; Js.VPrimitive "404"] 7)
  = "GET 404".
Proof.
  split; [discriminate|]. split; [discriminate|].
  exact (message_of_arguments_in_sequence warn [Js.VString "GET"]
           [Js.VPrimitive "404"] 7 ltac:(discriminate) ltac:(discriminate)).
Defined.

End Capture.

(** ** The error interceptor *)

Section Errors.
Import ErrorCapture.

Lemma add_registered (i : nat) (l : list nat) :
  existsb (Nat.eqb i) (add i l) = true.
Proof.
  unfold add. destruct (existsb (Nat.eqb i) l) eqn:E; [exact E|].
  rewrite existsb_app. simpl. rewrite Nat.eqb_refl. apply orb_true_r.
Qed.

Lemma add_NoDup (i : nat) (l : list nat) : NoDup l -> NoDup (add i l).
Proof.
  intros H. unfold add. destruct (existsb (Nat.eqb i) l) eqn:E; [exact H|].
  apply NoDup_app. split; [exact H|]. split; [|apply NoDup_singleton].
  intros x Hx Hi. apply list_elem_of_singleton in Hi. subst x.
  assert (existsb (Nat.eqb i) l = true); [|congruence].
  apply existsb_exists. exists i. split; [|apply Nat.eqb_refl].
  now apply list_elem_of_In.
Qed.

Lemma remove_unregistered (i : nat) (l : list nat) :
  NoDup l -> existsb (Nat.eqb i) (remove i l) = false /\ NoDup (remove i l).
Proof.
  induction l as [|j l IH]; intros H; simpl; [split; [reflexivity|exact H]|].
  apply NoDup_cons in H as [Hj Hl].
  destruct (Nat.eqb_spec i j) as [->|Hne].
  - split; [|exact Hl].
    destruct (existsb (Nat.eqb j) l) eqn:E; [|reflexivity].
    apply existsb_exists in E as (x & Hx & Hxj).
    apply Nat.eqb_eq in Hxj. subst x. apply list_elem_of_In in Hx.
    contradiction.
  - destruct (IH Hl) as [He Hn]. simpl. split.
    + rewrite He. destruct (Nat.eqb_spec i j); [contradiction|reflexivity].
    + apply NoDup_cons. split; [|exact Hn].
      intros Hin. apply Hj. clear -Hin.
      induction l as [|x l IH]; simpl in Hin; [inversion Hin|].
      apply elem_of_cons. destruct (Nat.eqb i x).
      * now right.
      * apply elem_of_cons in Hin as [->|Hin]; [now left | right; auto].
Qed.

Lemma run_op_distinct (op : Op) (st : Instance * Window) :
  distinct st.2 ->
  distinct (run_op op st).2 /\ ident (run_op op st).1 = ident st.1.
Proof.
  destruct st as [this win]. intros [He Hr].
  destruct op as [| | |ev]; simpl.
  - split; [split; now apply add_NoDup | reflexivity].
  - split; [split; now apply remove_unregistered | reflexivity].
  - split; [split; assumption | reflexivity].
  - split; [split; assumption|]. unfold dispatch.
    destruct ev; simpl; now destruct (existsb _ _).
Qed.

Lemma run_distinct (ops : list Op) :
  forall st : Instance * Window,
    distinct st.2 ->
    distinct (run ops st).2 /\ ident (run ops st).1 = ident st.1.
Proof.
  induction ops as [|op ops IH]; intros st H; [split; [exact H|reflexivity]|].
  destruct (run_op_distinct op st H) as [H1 Hi].
  destruct (IH (run_op op st) H1) as [H2 Hi2].
  split; [exact H2 | simpl; congruence].
Qed.

Lemma dispatches_registered (evs : list Event) :
  forall (this : Instance) (win : Window) (ev : Event),
    existsb (Nat.eqb (ident this)) (error_listeners win) = true ->
    existsb (Nat.eqb (ident this)) (rejection_listeners win) = true ->
    run (map Dispatch (evs ++ [ev])) (this, win)
    = ({| ident := ident this; capturedError := Some (info_of ev) |}, win).
Proof.
  induction evs as [|e evs IH]; intros this win ev He Hr.
  - simpl. unfold dispatch. destruct ev; now rewrite ?He, ?Hr.
  - change (run (map Dispatch ((e :: evs) ++ [ev])) (this, win))
      with (run (map Dispatch (evs ++ [ev])) (dispatch e this win, win)).
    assert (Hi : ident (dispatch e this win) = ident this)
      by (unfold dispatch; destruct e; now rewrite ?He, ?Hr).
    rewrite IH by (rewrite Hi; assumption). now rewrite Hi.
Qed.

Lemma dispatches_unregistered (evs : list Event) :
  forall (this : Instance) (win : Window),
    existsb (Nat.eqb (ident this)) (error_listeners win) = false ->
    existsb (Nat.eqb (ident this)) (rejection_listeners win) = false ->
    run (map Dispatch evs) (this, win) = (this, win).
Proof.
  induction evs as [|e evs IH]; intros this win He Hr; [reflexivity|].
  change (run (map Dispatch (e :: evs)) (this, win))
    with (run (map Dispatch evs) (dispatch e this win, win)).
  assert (Hd : dispatch e this win = this)
    by (unfold dispatch; destruct e; now rewrite ?He, ?Hr).
  rewrite Hd. now apply IH.
Qed.

(** Once started, the capture retains the record of the latest event
    only, whatever came before it and whether it was an uncaught error or
    an unhandled rejection. *)
Theorem latest_error_wins (history : list Op) (this : Instance)
    (win : Window) (evs : list Event) (ev : Event) :
  getError
    (run (history ++ Start :: map Dispatch (evs ++ [ev])) (this, win)).1
  = Some (info_of ev).
Proof.
  unfold run. rewrite fold_left_app. fold (run history (this, win)).
  destruct (run history (this, win)) as [this1 win1]. simpl.
  fold (run (map Dispatch (evs ++ [ev])) (this1, start this1 win1)).
  rewrite dispatches_registered; [reflexivity| |]; simpl; apply add_registered.
Qed.

(** After a single [stop()] no event reaches the capture, however often
    [start()] was called before: a repeated registration of the same
    handler is ignored.  The error retained at that point stays. *)
Theorem stop_unsubscribes (history : list Op) (this : Instance)
    (win : Window) (evs : list Event) :
  distinct win ->
  getError (run (history ++ Stop :: map Dispatch evs) (this, win)).1
  = getError (run history (this, win)).1.
Proof.
  intros Hd. unfold run at 1. rewrite fold_left_app.
  fold (run history (this, win)).
  destruct (run_distinct history (this, win) Hd) as [[He Hr] _].
  destruct (run history (this, win)) as [this1 win1]. simpl in *.
  fold (run (map Dispatch evs) (this1, stop this1 win1)).
  rewrite dispatches_unregistered; [reflexivity| |]; simpl;
    now apply remove_unregistered.
Qed.

Lemma stop_unsubscribes_witness :
  distinct {| error_listeners := []; rejection_listeners := [] |}
  /\ getError
       (run ([Start; Start; Dispatch (OnRejection (Nullish "null"))]
             ++ Stop :: map Dispatch [OnRejection (Nullish "undefined")])
          (new 0, {| error_listeners := []; rejection_listeners := [] |})).1
     = Some (of_rejection (Nullish "null")).
Proof.
  assert (Hd : distinct {| error_listeners := []; rejection_listeners := [] |})
    by (split; apply NoDup_nil_2).
  split; [exact Hd|].
  exact (stop_unsubscribes
           [Start; Start; Dispatch (OnRejection (Nullish "null"))]
           (new 0) _ [OnRejection (Nullish "undefined")] Hd).
Defined.

End Errors.

(** ** The channel: disconnecting, retrying, dispatching *)

Section ChannelFacts.
Import WebSocketClient Channel.
Context {R : Type}.

(** [disconnect()] leaves no socket and no timer, so that no reconnection
    can fire; it makes no connection attempt; a second [disconnect()]
    changes nothing. *)
Theorem disconnect_cancels_and_is_idempotent (c : Client R) (e : Loop) :
  single_timer (c, e) ->
  ws (disconnect c e).1 = None
  /\ reconnectTimeout (disconnect c e).1 = None
  /\ timers (disconnect c e).2 = []
  /\ attempts (disconnect c e).2 = attempts e
  /\ (forall h throws, step (Fire h throws) (disconnect c e) = None)
  /\ disconnect (disconnect c e).1 (disconnect c e).2 = disconnect c e.
Proof.
  intros [Ht Hz]. simpl in *.
  assert (H : ws (disconnect c e).1 = None
              /\ reconnectTimeout (disconnect c e).1 = None
              /\ timers (disconnect c e).2 = []
              /\ attempts (disconnect c e).2 = attempts e).
  { unfold disconnect.
    destruct (reconnectTimeout c) as [[|h]|] eqn:E; simpl.
    - now destruct Hz.
    - pose proof (clearTimeout_only _ _ _ Ht) as Hc.
      destruct (ws c); simpl; auto.
    - rewrite E. destruct (ws c) eqn:Ew; simpl; auto. }
  destruct H as (Hw & Hr & Hti & Ha).
  repeat split; auto.
  - intros h throws. destruct (disconnect c e) as [c' e']. simpl in *.
    now rewrite Hti.
  - destruct (disconnect c e) as [c' e']. simpl in *.
    unfold disconnect. rewrite Hr. simpl. now rewrite Hw.
Qed.

Lemma scheduleReconnect_frame (c : Client R) (e : Loop) :
  ws (scheduleReconnect c e).1 = ws c
  /\ sockets (scheduleReconnect c e).2 = sockets e
  /\ attempts (scheduleReconnect c e).2 = attempts e.
Proof.
  unfold scheduleReconnect. destruct (truthy _); simpl; auto.
Qed.

Lemma disconnect_no_socket (c : Client R) (e : Loop) :
  ws (disconnect c e).1 = None.
Proof.
  unfold disconnect.
  destruct (truthy (reconnectTimeout c)); simpl;
    destruct (ws c) eqn:E; simpl; auto.
Qed.

Lemma connect_ws_known (throws : bool) (c : Client R) (e : Loop) :
  ws_known (c, e) -> ws_known (connect throws c e).
Proof.
  intros H s. unfold connect. destruct throws.
  - destruct (scheduleReconnect_frame c
                {| timers := timers e; last_timer := last_timer e;
                   sockets := sockets e; attempts := S (attempts e);
                   closing := closing e |}) as (-> & -> & _).
    apply H.
  - simpl. intros [= <-]. lia.
Qed.

Lemma step_ws_known (ev : Event) (st st' : Client R * Loop) :
  ws_known st -> step ev st = Some st' -> ws_known st'.
Proof.
  destruct st as [c e]. intros H E.
  destruct ev as [throws| |s|h throws]; simpl in E.
  - inversion E. now apply connect_ws_known.
  - inversion E. intros s. rewrite disconnect_no_socket. discriminate.
  - destruct (Nat.ltb s (sockets e)); inversion E. intros s'.
    destruct (scheduleReconnect_frame c e) as (-> & -> & _). apply H.
  - destruct (existsb (fun t => Nat.eqb (fst t) h) (timers e));
      inversion E.
    unfold timer_callback. apply connect_ws_known. exact H.
Qed.

Lemma run_ws_known (evs : list Event) :
  forall st st' : Client R * Loop,
    ws_known st -> run evs st = Some st' -> ws_known st'.
Proof.
  induction evs as [|ev evs IH]; intros st st' H E; simpl in E.
  - now inversion E; subst.
  - destruct (step ev st) as [st1|] eqn:E1; simpl in E; [|discriminate].
    eapply IH; [|exact E]. eapply step_ws_known; eauto.
Qed.

(** [disconnect()] does not end the reconnection cycle.  When the socket
    it closed reports its close, a timer is scheduled as after any other
    close, and when that timer fires the client connects again and holds
    a new socket. *)
Theorem close_after_disconnect_reconnects (evs : list Event)
    (c : Client R) (e : Loop) (s : Socket) :
  run evs new = Some (c, e) ->
  ws c = Some s ->
  exists st1 h st2,
    run [Disconnect; Close s] (c, e) = Some st1
    /\ ws st1.1 = None
    /\ timers st1.2 = [(h, 5000)]
    /\ step (Fire h false) st1 = Some st2
    /\ ws st2.1 = Some (sockets e)
    /\ attempts st2.2 = S (attempts e).
Proof.
  intros E Hw.
  pose proof (run_single evs _ _ new_single E) as Hs.
  assert (Hk : ws_known (c, e)).
  { eapply run_ws_known; [|exact E]. intros s'. discriminate. }
  specialize (Hk s Hw). simpl in Hk.
  destruct (disconnect_cancels_and_is_idempotent c e Hs)
    as (Hw1 & Hr1 & Ht1 & Ha1 & _ & _).
  pose proof (disconnect_single c e Hs) as Hs1.
  assert (Hso : sockets (disconnect c e).2 = sockets e).
  { unfold disconnect.
    destruct (truthy (reconnectTimeout c)); simpl;
      destruct (reconnectTimeout c); destruct (ws c); reflexivity. }
  destruct (disconnect c e) as [c1 e1] eqn:Ed. simpl in *.
  exists (scheduleReconnect c1 e1), (S (last_timer e1)).
  assert (Hsch : scheduleReconnect c1 e1 =
                 ({| ws := ws c1; reconnectTimeout := Some (S (last_timer e1));
                     onQuestionsCallback := onQuestionsCallback c1 |},
                  {| timers := timers e1 ++ [(S (last_timer e1), 5000)];
                     last_timer := S (last_timer e1); sockets := sockets e1;
                     attempts := attempts e1; closing := closing e1 |})).
  { unfold scheduleReconnect. now rewrite Hr1. }
  eexists. split.
  { simpl. rewrite Ed. simpl. rewrite Hso. apply Nat.ltb_lt in Hk.
    now rewrite Hk. }
  rewrite Hsch. simpl. rewrite Ht1. simpl. rewrite Nat.eqb_refl. simpl.
  split; [exact Hw1|]. split; [reflexivity|]. split; [reflexivity|].
  simpl. rewrite Hso, Ha1. auto.
Qed.

(** As long as [new WebSocket] raises, every firing of the timer is
    followed by another timer: after any number [n] of failed attempts in
    a row, [n] more attempts have been made and one timer of 5000 ms is
    pending.  There is no last attempt and no growing delay. *)
Theorem retries_without_limit (n : nat) :
  forall st : Client R * Loop,
    single_timer st ->
    timers st.2 <> [] ->
    exists st' h,
      fail_again n st = Some st'
      /\ attempts st'.2 = (attempts st.2 + n)%nat
      /\ timers st'.2 = [(h, 5000)].
Proof.
  induction n as [|n IH]; intros [c e] Hs Hne.
  - destruct Hs as [Ht Hz]. simpl in *.
    destruct (reconnectTimeout c) as [h|]; [|congruence].
    exists (c, e), h. simpl. split; [reflexivity|]. split; [lia|exact Ht].
  - pose proof Hs as [Ht Hz]. simpl in Ht, Hz, Hne.
    destruct (reconnectTimeout c) as [h|] eqn:Er; [|congruence].
    assert (Hin : existsb (fun t => Nat.eqb (fst t) h) (timers e) = true)
      by (rewrite Ht; simpl; now rewrite Nat.eqb_refl).
    destruct (fire_single h true c e Hs Hin) as (_ & Hc & Hs').
    set (st1 := timer_callback true c (clearTimeout h e)) in *.
    assert (Hst1 : attempts st1.2 = S (attempts e) /\ timers st1.2 <> []).
    { unfold st1, timer_callback, connect, scheduleReconnect. simpl.
      split; [reflexivity|]. intros H.
      apply app_eq_nil in H as [_ H]. discriminate H. }
    destruct Hst1 as [Ha1 Hne1].
    destruct (IH st1 Hs' Hne1) as (st' & h' & E' & Ha' & Ht').
    exists st', h'. split; [|split; [|exact Ht']].
    + assert (Hstep : step (Fire h true) (c, e) = Some st1)
        by (simpl; now rewrite Hin).
      change (fail_again (S n) (c, e))
        with (match timers e with
              | (h0, _) :: _ =>
                  st2 ← step (Fire h0 true) (c, e); fail_again n st2
              | [] => None
              end).
      rewrite Ht. cbv beta iota. rewrite Hstep. exact E'.
    + rewrite Ha', Ha1. simpl. lia.
Qed.

(** The callback runs on a message exactly when the message has the type
    questions, carries data, and a callback is registered; it then gets
    the session id and the questions of that data.  Text that is not
    JSON, other types and missing data never reach it. *)
Theorem delivered_iff_questions_message (c : Client R) (p : Payload)
    (r : R) :
  onmessage c p = Delivered r <->
  exists cb d,
    onQuestionsCallback c = Some cb
    /\ p = Parsed (Some "questions") (Some d)
    /\ r = cb (Types.d_sessionId d) (Types.d_questions d).
Proof.
  split.
  - destruct p as [| |[t|] data]; simpl; try discriminate.
    destruct (String.eqb_spec t "questions") as [->|]; [|discriminate].
    destruct (onQuestionsCallback c) as [cb|]; [|discriminate].
    destruct data as [d|]; [|discriminate].
    intros [= <-]. eauto.
  - intros (cb & d & Hc & -> & ->). simpl. now rewrite Hc.
Qed.

End ChannelFacts.

(** A client whose first connection attempt raised. *)
Lemma disconnect_cancels_and_is_idempotent_witness :
  WebSocketClient.single_timer
    (WebSocketClient.connect true (@WebSocketClient.new unit).1
       (@WebSocketClient.new unit).2)
  /\ WebSocketClient.timers
       (WebSocketClient.disconnect
          (WebSocketClient.connect true (@WebSocketClient.new unit).1
             (@WebSocketClient.new unit).2).1
          (WebSocketClient.connect true (@WebSocketClient.new unit).1
             (@WebSocketClient.new unit).2).2).2 = [].
Proof.
  assert (H : WebSocketClient.single_timer
                (WebSocketClient.connect true (@WebSocketClient.new unit).1
                   (@WebSocketClient.new unit).2))
    by (split; [reflexivity | discriminate]).
  split; [exact H|].
  exact (proj1 (proj2 (proj2
           (disconnect_cancels_and_is_idempotent _ _ H)))).
Defined.

(** A client that has connected once. *)
Lemma close_after_disconnect_reconnects_witness :
  exists c e,
    WebSocketClient.run [WebSocketClient.Connect false]
      (@WebSocketClient.new unit) = Some (c, e)
    /\ WebSocketClient.ws c = Some 0%nat
    /\ exists st1 h st2,
        WebSocketClient.run
          [WebSocketClient.Disconnect; WebSocketClient.Close 0%nat] (c, e)
        = Some st1
        /\ WebSocketClient.step (WebSocketClient.Fire h false) st1 = Some st2
        /\ WebSocketClient.ws st2.1 = Some 1%nat.
Proof.
  do 2 eexists. split; [reflexivity|]. split; [reflexivity|].
  destruct (close_after_disconnect_reconnects (R := unit)
              [WebSocketClient.Connect false] _ _ 0%nat eq_refl eq_refl)
    as (st1 & h & st2 & E1 & _ & _ & E2 & Hw & _).
  exists st1, h, st2. auto.
Defined.

(** A client whose first connection attempt raised, and three more that
    raise. *)
Lemma retries_without_limit_witness :
  let st := WebSocketClient.connect true (@WebSocketClient.new unit).1
              (@WebSocketClient.new unit).2 in
  WebSocketClient.single_timer st
  /\ WebSocketClient.timers st.2 <> []
  /\ exists st' h,
      Channel.fail_again 3 st = Some st'
      /\ WebSocketClient.attempts st'.2 = 4%nat
      /\ WebSocketClient.timers st'.2 = [(h, 5000)].
Proof.
  intros st.
  assert (Hs : WebSocketClient.single_timer st)
    by (split; [reflexivity | discriminate]).
  assert (Hne : WebSocketClient.timers st.2 <> []) by discriminate.
  split; [exact Hs|]. split; [exact Hne|].
  exact (retries_without_limit 3 st Hs Hne).
Defined.

(** ** Addresses and answers of the peer *)

Section Peer.
Import Channel APIClient.

(** The scheme of the peer's address is swapped at the front and only
    there: an address that starts with http becomes one that starts with
    ws, so https becomes wss, and any other address is used as it is. *)
Theorem wsUrl_swaps_leading_http (url : string) :
  (forall rest, wsUrl ("http" +:+ rest) = "ws" +:+ rest)
  /\ (forall host, wsUrl ("https://" +:+ host) = "wss://" +:+ host)
  /\ ((exists rest, url = "http" +:+ rest) \/ wsUrl url = url).
Proof.
  split; [reflexivity|]. split; [reflexivity|].
  destruct url as [|a0 [|a1 [|a2 [|a3 rest]]]].
  - right; reflexivity.
  - right. now destruct a0 as [[] [] [] [] [] [] [] []].
  - destruct (Ascii.ascii_dec a0 "h") as [->|H0];
      [|right; destruct a0 as [[] [] [] [] [] [] [] []]; try reflexivity;
        now destruct H0].
    right. now destruct a1 as [[] [] [] [] [] [] [] []].
  - destruct (Ascii.ascii_dec a0 "h") as [->|H0];
      [|right; destruct a0 as [[] [] [] [] [] [] [] []]; try reflexivity;
        now destruct H0].
    destruct (Ascii.ascii_dec a1 "t") as [->|H1];
      [|right; destruct a1 as [[] [] [] [] [] [] [] []]; try reflexivity;
        now destruct H1].
    right. now destruct a2 as [[] [] [] [] [] [] [] []].
  - destruct (Ascii.ascii_dec a0 "h") as [->|H0];
      [|right; destruct a0 as [[] [] [] [] [] [] [] []]; try reflexivity;
        now destruct H0].
    destruct (Ascii.ascii_dec a1 "t") as [->|H1];
      [|right; destruct a1 as [[] [] [] [] [] [] [] []]; try reflexivity;
        now destruct H1].
    destruct (Ascii.ascii_dec a2 "t") as [->|H2];
      [|right; destruct a2 as [[] [] [] [] [] [] [] []]; try reflexivity;
        now destruct H2].
    destruct (Ascii.ascii_dec a3 "p") as [->|H3];
      [|right; destruct a3 as [[] [] [] [] [] [] [] []]; try reflexivity;
        now destruct H3].
  left. now exists rest.
Qed.

(** A report counts as delivered only when the response is ok and its
    body is JSON with properties; answers count as delivered as soon as
    the response is ok, whatever the body.  A response that is not ok
    fails both, with the status text at the end of the message. *)
Theorem delivery_depends_on_status_and_body (f : Fetched) :
  (forall data,
      submitDebugReport_settle f = Returns data <->
      exists statusText, f = Response true statusText (JsonValue data))
  /\ (submitAnswers_settle f = Returns tt <->
      exists statusText body, f = Response true statusText body)
  /\ (forall statusText body,
        exists a b,
          submitDebugReport_settle (Response false statusText body) = Throws a
          /\ submitAnswers_settle (Response false statusText body) = Throws b
          /\ Js.thrown_message a =
               "Failed to submit debug report: " +:+ statusText
          /\ Js.thrown_message b =
               "Failed to submit answers: " +:+ statusText).
Proof.
  split; [|split].
  - intros data. split.
    + destruct f as [e|[] st [e|e|d]]; simpl; try discriminate.
      intros [= ->]. eauto.
    + intros [st ->]. reflexivity.
  - split.
    + destruct f as [e|[] st body]; simpl; try discriminate. eauto.
    + intros (st & body & ->). reflexivity.
  - intros st body. simpl. do 2 eexists. repeat split.
Qed.

End Peer.

(** ** Answers, sessions and storage *)

Section Sessions.
Import Types Widget Panel.

Lemma no_index_properties (o : Answers) :
  Forall (fun e => array_index e.1 = None) o ->
  index_properties o = []
  /\ filter (fun e : string * string => array_index e.1 = None) o = o.
Proof.
  unfold index_properties.
  induction 1 as [|e o He _ [IH1 IH2]]; [split; reflexivity|]. split.
  - cbn [omap list_omap]. rewrite He. exact IH1.
  - cbn [filter list_filter]. destruct (decide (array_index e.1 = None));
      [|contradiction].
    f_equal. exact IH2.
Qed.

Lemma entries_no_index (o : Answers) :
  Forall (fun e => array_index e.1 = None) o -> entries o = o.
Proof.
  intros H. unfold entries, own_properties.
  destruct (no_index_properties o H) as [-> ->]. simpl.
  clear. induction o as [|[k v] o IH]; simpl; [reflexivity | now rewrite IH].
Qed.

Lemma set_keys (k v : string) (o : Answers) :
  map fst (set k v o) =
  match get k o with
  | Some _ => map fst o
  | None => map fst o ++ [k]
  end.
Proof.
  induction o as [|[k0 v0] o IH]; simpl; [reflexivity|].
  destruct (String.eqb_spec k0 k) as [->|Hne]; simpl; [reflexivity|].
  rewrite IH. now destruct (get k o).
Qed.

(** Setting an answer and reading answers: the answer set is the one
    read back and the answers of other questions are as before; setting
    adds a property only for a question without an answer, and the last
    value set is the one kept.  When no question id is an array index,
    the ids are enumerated in the order in which they were first
    answered. *)
Theorem answer_set_then_get (k k' v : string) (o : Answers) :
  get k' (set k v o) = (if String.eqb k k' then Some v else get k' o)
  /\ length (set k v o) =
       match get k o with
       | Some _ => length o
       | None => S (length o)
       end
  /\ (forall v', set k v (set k v' o) = set k v o)
  /\ (array_index k = None ->
      Forall (fun e => array_index e.1 = None) o ->
      map fst (entries (set k v o)) =
      match get k o with
      | Some _ => map fst o
      | None => map fst o ++ [k]
      end).
Proof.
  split; [|split; [|split]].
  - induction o as [|[k0 v0] o IH]; simpl.
    + destruct (String.eqb_spec k k'); reflexivity.
    + destruct (String.eqb_spec k0 k) as [->|Hne]; simpl.
      * destruct (String.eqb_spec k k'); reflexivity.
      * destruct (String.eqb_spec k0 k') as [->|Hne'].
        -- destruct (String.eqb_spec k k'); [congruence|reflexivity].
        -- exact IH.
  - rewrite <- (length_map fst), set_keys.
    destruct (get k o); rewrite ?length_app, length_map; simpl; lia.
  - intros v'. induction o as [|[k0 v0] o IH]; simpl.
    + now rewrite String.eqb_refl.
    + destruct (String.eqb_spec k0 k) as [->|Hne]; simpl.
      * now rewrite String.eqb_refl.
      * destruct (String.eqb_spec k0 k); [contradiction|]. now rewrite IH.
  - intros Hk Ho. rewrite entries_no_index; [apply set_keys|].
    induction Ho as [|[k0 v0] o He Ho IH]; simpl.
    + constructor; [exact Hk | constructor].
    + destruct (String.eqb k0 k); constructor; auto.
Qed.

Lemma answer_set_then_get_witness :
  array_index "q2" = None
  /\ Forall (fun e : string * string => array_index e.1 = None) [("q1", "a")]
  /\ map fst (entries (set "q2" "b" [("q1", "a")])) = ["q1"; "q2"].
Proof.
  assert (H1 : array_index "q2" = None) by reflexivity.
  assert (H2 : Forall (fun e : string * string => array_index e.1 = None)
                 [("q1", "a")]) by (repeat constructor).
  split; [exact H1|]. split; [exact H2|].
  exact (proj2 (proj2 (proj2 (answer_set_then_get "q2" "q2" "b"
                                [("q1", "a")]))) H1 H2).
Defined.

Lemma lastn_length {A} (n : Z) (l : list A) :
  length (ConsoleCapture.lastn n l) = Nat.min (Z.to_nat n) (length l).
Proof. unfold ConsoleCapture.lastn. rewrite length_drop. lia. Qed.

Lemma lastn_suffix {A} (n : Z) (l : list A) :
  take (length l - Z.to_nat n) l ++ ConsoleCapture.lastn n l = l.
Proof. apply take_drop. Qed.

(** [saveSessions] never touches the state of the widget.  When the
    storage takes the write, it holds the last 50 sessions of the list in
    their order, all of them when there are no more than 50, the oldest
    being dropped; when the write throws, the storage holds what it held
    before.  Either way a storage that held at most 50 sessions holds at
    most 50 afterwards. *)
Theorem storage_holds_last_50_or_stays (writable : bool)
    (l : list DebugSession) (s : State) (store : Storage) :
  let u := perform_in writable (saveSessions l) (s, store) in
  u.1 = s
  /\ u.2 = (if writable then Some (ConsoleCapture.lastn 50 l) else store)
  /\ (exists dropped,
        l = dropped ++ ConsoleCapture.lastn 50 l
        /\ length dropped = (length l - 50)%nat
        /\ length (ConsoleCapture.lastn 50 l) = Nat.min 50 (length l))
  /\ ((length (loadSessions (item_of store)) <= 50)%nat ->
      (length (loadSessions (item_of u.2)) <= 50)%nat).
Proof.
  pose proof (lastn_length 50 l) as Hl.
  split; [|split; [|split]].
  - destruct writable; reflexivity.
  - destruct writable; reflexivity.
  - exists (take (length l - 50) l). split; [|split].
    + symmetry. apply (lastn_suffix 50).
    + rewrite length_take. lia.
    + exact Hl.
  - destruct writable; simpl; [|auto].
    intros _. unfold slice_last_50. rewrite Hl. lia.
Qed.

Lemma storage_holds_last_50_or_stays_witness :
  (length (loadSessions (item_of None)) <= 50)%nat
  /\ (length
        (loadSessions
           (item_of (perform_in false (saveSessions [])
                       (initial "" wait [], None)).2)) <= 50)%nat.
Proof.
  assert (H : (length (loadSessions (item_of None)) <= 50)%nat)
    by (simpl; lia).
  split; [exact H|].
  exact (proj2 (proj2 (proj2
           (storage_holds_last_50_or_stays false [] (initial "" wait [])
              None))) H).
Defined.

(** With nothing readable in the local storage the widget starts with
    the project path of the configuration, in wait mode and with no
    sessions; with readable values it starts from them, and a project
    path in the configuration goes before the stored one. *)
Theorem first_render_from_storage (path : string) (st : StoredSettings)
    (l : list DebugSession) :
  first_render path Absent Absent = initial path wait []
  /\ first_render path Empty Empty = initial path wait []
  /\ first_render path Unparsable Unparsable = initial path wait []
  /\ first_render "" (Parsed st) (Parsed l)
     = initial (st_projectPath st) (st_debugMode st) l
  /\ projectPath (first_render path (Parsed st) (Parsed l))
     = (if String.eqb path "" then st_projectPath st else path).
Proof.
  unfold first_render, or_else. simpl.
  repeat split; destruct (String.eqb_spec path ""); subst; reflexivity.
Qed.

Lemma lastn_snoc {A} (n : nat) (l : list A) (x : A) :
  ConsoleCapture.lastn (Z.of_nat (S n)) (l ++ [x])
  = ConsoleCapture.lastn (Z.of_nat n) l ++ [x].
Proof.
  unfold ConsoleCapture.lastn. rewrite !Nat2Z.id, length_app. simpl.
  replace (length l + 1 - S n)%nat with (length l - n)%nat by lia.
  apply drop_app_le. lia.
Qed.

(** The panel lists at most five sessions, the newest first; a session
    appended to the list is at the head of what is shown next. *)
Theorem recent_sessions_newest_first (l : list DebugSession)
    (s : DebugSession) :
  length (recent l) = Nat.min 5 (length l)
  /\ recent (l ++ [s]) = s :: rev (ConsoleCapture.lastn 4 l).
Proof.
  unfold recent. split.
  - rewrite length_rev. apply (lastn_length 5).
  - rewrite (lastn_snoc 4). now rewrite rev_app_distr.
Qed.

End Sessions.

(** ** Handlers of the panel and of the question modal *)

Section Handlers.
Import Types Widget Panel.

(** [handleSubmitAnswers] does nothing before its request settles, and it
    issues a request exactly when the session id is a string that is not
    empty.  The answers go to the answer endpoint of the peer in the
    order of [Object.entries]: the ids that are array indices first, by
    ascending index, then the others in the order in which they were
    first answered; so when no id is an array index, in that order
    throughout. *)
Theorem submit_request_needs_session_id (baseUrl : string) (r : State) :
  at_once (handleSubmitAnswers baseUrl r) = []
  /\ requests (handleSubmitAnswers baseUrl r) =
       match sessionId r with
       | Some sid =>
           if String.eqb sid "" then []
           else [APIClient.PostAnswers (baseUrl +:+ "/api/questions/answer")
                   {| APIClient.a_sessionId := sid;
                      APIClient.a_answers := entries (answers r) |}]
       | None => []
       end
  /\ (Forall (fun e => array_index e.1 = None) (answers r) ->
      entries (answers r) = answers r)
  /\ (forall a b c d : string,
        entries [("q2", a); ("10", b); ("9", c); ("01", d)]
        = [("9", c); ("10", b); ("q2", a); ("01", d)]).
Proof.
  split; [|split; [|split]].
  - unfold handleSubmitAnswers.
    destruct (sessionId r) as [sid|]; simpl; [|reflexivity].
    destruct (String.eqb sid ""); reflexivity.
  - unfold handleSubmitAnswers.
    destruct (sessionId r) as [sid|]; simpl; [|reflexivity].
    destruct (String.eqb sid ""); reflexivity.
  - apply entries_no_index.
  - reflexivity.
Qed.

Lemma submit_request_needs_session_id_witness :
  let r := {| isOpen := true; showSettings := false; comment := "";
              screenshot := None; isCapturing := false; isSending := false;
              status := ""; projectPath := ""; debugMode := wait;
              isWaitingForResponse := false; sessions := [];
              questions := []; sessionId := Some "s1";
              answers := [("q1", "a"); ("q2", "b")]; currentStep := 0 |} in
  Forall (fun e : string * string => array_index e.1 = None) (answers r)
  /\ entries (answers r) = answers r.
Proof.
  intros r.
  assert (H : Forall (fun e : string * string => array_index e.1 = None)
                (answers r)) by (repeat constructor).
  split; [exact H|].
  exact (proj1 (proj2 (proj2
           (submit_request_needs_session_id "http://localhost:4000" r))) H).
Defined.

(** When the answers could not be delivered, only the status line
    changes: questions, answers, position, session id, sessions and
    storage stay, so the user can submit again.  When they were
    delivered, the modal is closed, the session id is dropped, the
    sessions of the render that have this session id are marked answered,
    and the answers stay in the state until the next questions arrive;
    the marked list, cut to 50, is in the storage if the storage took the
    write, and the storage is as before if the write threw. *)
Theorem submit_answers_outcome (writable : bool) (baseUrl : string)
    (r : State) (sid : string) (f : APIClient.Fetched) (s : State)
    (store : Storage) :
  sessionId r = Some sid ->
  sid <> "" ->
  let u' := perform_in writable (settled (handleSubmitAnswers baseUrl r) f)
              (s, store) in
  match APIClient.submitAnswers_settle f with
  | APIClient.Throws _ => u' = apply (SetStatus "Failed to submit answers") (s, store)
  | APIClient.Returns _ =>
      questions u'.1 = []
      /\ buttons u'.1 = []
      /\ sessionId u'.1 = None
      /\ isWaitingForResponse u'.1 = false
      /\ status u'.1 = "Answers submitted"
      /\ sessions u'.1 = map (mark_answered sid) (sessions r)
      /\ u'.2 = (if writable
                 then Some (ConsoleCapture.lastn 50
                              (map (mark_answered sid) (sessions r)))
                 else store)
      /\ answers u'.1 = answers s
      /\ comment u'.1 = comment s
  end.
Proof.
  intros Hs Hne. unfold handleSubmitAnswers. rewrite Hs. simpl.
  destruct (String.eqb_spec sid "") as [|_]; [contradiction|]. simpl.
  destruct (APIClient.submitAnswers_settle f) as [[]|e].
  - generalize (map (mark_answered sid) (sessions r)) as marked.
    intros marked. destruct writable; cbv; repeat split.
  - reflexivity.
Qed.

Lemma submit_answers_outcome_witness :
  let r := (perform (onQuestions "s1" []) (initial "" wait [], None)).1 in
  sessionId r = Some "s1" /\ "s1" <> "" /\
  perform_in false
    (settled (handleSubmitAnswers "http://localhost:4000" r)
       (APIClient.Rejects {| Js.thrown_name := "TypeError";
                             Js.thrown_message := "Failed to fetch" |}))
    (r, None)
  = apply (SetStatus "Failed to submit answers") (r, None).
Proof.
  intros r. split; [reflexivity|]. split; [discriminate|].
  exact (submit_answers_outcome false "http://localhost:4000" r "s1"
           (APIClient.Rejects {| Js.thrown_name := "TypeError";
                                 Js.thrown_message := "Failed to fetch" |})
           r None eq_refl ltac:(discriminate)).
Defined.

(** After a submit no session with the submitted session id is left
    pending; sessions with another id or with none, such as those of
    backlog sends, are as they were; only the status of a session is ever
    changed, and marking twice is marking once. *)
Theorem marks_sessions_of_that_id_only (sid : string) (s : DebugSession) :
  (s_sessionId s = Some sid -> status_of (mark_answered sid s) = answered)
  /\ (s_sessionId s <> Some sid -> mark_answered sid s = s)
  /\ id (mark_answered sid s) = id s
  /\ timestamp (mark_answered sid s) = timestamp s
  /\ s_comment (mark_answered sid s) = s_comment s
  /\ s_sessionId (mark_answered sid s) = s_sessionId s
  /\ mark_answered sid (mark_answered sid s) = mark_answered sid s.
Proof.
  unfold mark_answered, same_session.
  destruct (s_sessionId s) as [x|] eqn:E; simpl.
  - destruct (String.eqb_spec x sid) as [->|Hne]; simpl; rewrite ?E; simpl.
    + rewrite String.eqb_refl. repeat split; auto. congruence.
    + destruct (String.eqb_spec x sid); [contradiction|].
      repeat split; auto; congruence.
  - rewrite E. repeat split; auto. discriminate.
Qed.

Lemma marks_sessions_of_that_id_only_witness :
  let s := {| id := "session-1"; timestamp := 1; s_comment := "x";
              status_of := pending; reportId := None;
              s_sessionId := Some "s1" |} in
  s_sessionId s = Some "s1" /\ status_of (mark_answered "s1" s) = answered.
Proof.
  intros s. split; [reflexivity|].
  exact (proj1 (marks_sessions_of_that_id_only "s1" s) eq_refl).
Defined.

Lemma at_once_submit (baseUrl : string) (r : State) :
  at_once (handleSubmitAnswers baseUrl r) = [].
Proof. apply submit_request_needs_session_id. Qed.

Lemma in_range_current (r : State) :
  in_range r -> exists q, current r = Some q.
Proof.
  intros [Hlo Hhi]. unfold current.
  destruct (Z.ltb_spec (currentStep r) 0); [lia|].
  destruct (questions r !! Z.to_nat (currentStep r)) as [q|] eqn:E; [eauto|].
  apply lookup_ge_None in E. lia.
Qed.

(** A click on Back, Next or Submit moves the position as far as the
    questions reach and no further: Back goes one down but not below the
    first question, Next one up but not beyond the last, and neither the
    questions nor the answers change.  A position that names a question
    keeps naming one. *)
Theorem navigation_stays_in_range (baseUrl : string) (b : Button)
    (s : State) (store : Storage) :
  in_range s ->
  let u' := click baseUrl b (s, store) in
  in_range u'.1
  /\ questions u'.1 = questions s
  /\ answers u'.1 = answers s
  /\ u'.2 = store
  /\ currentStep u'.1 =
       match b with
       | Back => Z.max 0 (currentStep s - 1)
       | Next => Z.min (Z.of_nat (length (questions s)) - 1) (currentStep s + 1)
       | SubmitAnswers => currentStep s
       end.
Proof.
  intros Hr. destruct (in_range_current s Hr) as [q Hq].
  destruct Hr as [Hlo Hhi]. unfold click, buttons, in_range. simpl.
  rewrite Hq.
  destruct (Z.ltb_spec 0 (Z.of_nat (length (questions s)))); [|lia].
  destruct (Z.ltb_spec (currentStep s) (Z.of_nat (length (questions s))));
    [|lia].
  simpl.
  destruct (Z.ltb_spec 0 (currentStep s));
    destruct (Z.ltb_spec (currentStep s)
                (Z.of_nat (length (questions s)) - 1));
    destruct b; simpl; rewrite ?at_once_submit; simpl;
    repeat split; lia.
Qed.

Lemma navigation_stays_in_range_witness :
  let q := {| q_id := "q1"; q_text := "Why?"; q_type := text;
              q_options := None; q_required := false |} in
  let s := {| isOpen := true; showSettings := false; comment := "";
              screenshot := None; isCapturing := false; isSending := false;
              status := ""; projectPath := ""; debugMode := wait;
              isWaitingForResponse := false; sessions := [];
              questions := [q; q]; sessionId := Some "s1"; answers := [];
              currentStep := 1 |} in
  in_range s
  /\ currentStep (click "http://localhost:4000" Next (s, None)).1
     = Z.min (Z.of_nat (length (questions s)) - 1) (currentStep s + 1).
Proof.
  intros q s.
  assert (H : in_range s) by (split; cbv; [discriminate | reflexivity]).
  split; [exact H|].
  exact (proj2 (proj2 (proj2 (proj2
           (navigation_stays_in_range "http://localhost:4000" Next
              s None H))))).
Defined.

(** While the screenshot is being taken its button is disabled; when it
    has settled the button is enabled again, whether it worked or not.  A
    failure leaves the screenshot taken before, the comment and the
    sessions as they are and only reports in the status line; a success
    replaces the screenshot. *)
Theorem screenshot_failure_is_contained (res : APIClient.Result string)
    (s : State) (store : Storage) :
  let u1 := perform handleCaptureScreenshot_begin (s, store) in
  let u2 := perform (handleCaptureScreenshot_settle res) u1 in
  capture_disabled u1.1 = true
  /\ capture_disabled u2.1 = false
  /\ comment u2.1 = comment s
  /\ sessions u2.1 = sessions s
  /\ isSending u2.1 = isSending s
  /\ isWaitingForResponse u2.1 = isWaitingForResponse s
  /\ u2.2 = store
  /\ match res with
     | APIClient.Throws _ =>
         screenshot u2.1 = screenshot s /\ status u2.1 = "Screenshot failed"
     | APIClient.Returns ss =>
         screenshot u2.1 = Some ss /\ status u2.1 = "Screenshot captured"
     end.
Proof. destruct res; cbv; repeat split. Qed.

Lemma handleSend_request (baseUrl : string) (r : State)
    (cc : ConsoleCapture.Instance) (err : option ErrorInfo) (now : Z)
    (href agent : string) (w : ConsoleCapture.World)
    (es : list ConsoleCapture.LogEntry) :
  ConsoleCapture.heap w !! ConsoleCapture.logs cc = Some es ->
  exists script w1,
    handleSend baseUrl r cc err now href agent w = Some (script, w1)
    /\ requests script =
         [APIClient.PostDebug (baseUrl +:+ "/api/debug")
            {| APIClient.logs := es;
               APIClient.error := err;
               APIClient.screenshot := or_undefined (screenshot r);
               APIClient.comment := comment r;
               APIClient.url := href;
               APIClient.projectPath := or_undefined (Some (projectPath r));
               APIClient.timestamp := now;
               APIClient.userAgent := agent;
               APIClient.mode := debugMode r;
               APIClient.priority := medium |}].
Proof.
  intros Hx. destruct (getLogs_copy cc w es Hx) as [Hg Hr].
  unfold handleSend, report, APIClient.submitDebugReport_request,
    APIClient.serialize.
  rewrite Hg. simpl. unfold ConsoleCapture.read in *. simpl in *.
  rewrite Hr. simpl. eauto.
Qed.

(** A send that succeeds appends one pending session, with the time of
    the send in its id, the ids the peer returned, and the comment or "No
    comment" for an empty one.  The list in the state grows by that one
    session.  If the storage takes the write it holds that list cut to
    the last 50, so that with 50 sessions before the send the oldest is
    dropped there; if the write throws the storage is as before, and the
    state is the same as when the write goes through.  Comment and
    screenshot are emptied and sending is over. *)
Theorem successful_send_appends_session (writable : bool)
    (baseUrl : string) (r : State)
    (cc : ConsoleCapture.Instance) (err : option ErrorInfo) (now : Z)
    (href agent : string) (w : ConsoleCapture.World)
    (f : APIClient.Fetched) (response : option APIClient.Receipt)
    (s : State) (store : Storage) :
  is_Some (ConsoleCapture.heap w !! ConsoleCapture.logs cc) ->
  APIClient.submitDebugReport_settle f = APIClient.Returns response ->
  exists script w1,
    handleSend baseUrl r cc err now href agent w = Some (script, w1)
    /\ let u' := perform_in writable (settled script f) (s, store) in
       let added := newSession r now response in
       sessions u'.1 = sessions r ++ [added]
       /\ u'.2 = (if writable
                  then Some (ConsoleCapture.lastn 50 (sessions r ++ [added]))
                  else store)
       /\ (length (sessions r) = 50%nat ->
           ConsoleCapture.lastn 50 (sessions r ++ [added])
           = tail (sessions r) ++ [added])
       /\ u'.1 = (perform (settled script f) (s, store)).1
       /\ status_of added = pending
       /\ timestamp added = now
       /\ s_comment added =
            (if String.eqb (comment r) "" then "No comment" else comment r)
       /\ reportId added = response ≫= APIClient.reportId
       /\ s_sessionId added = response ≫= APIClient.sessionId
       /\ comment u'.1 = ""
       /\ screenshot u'.1 = None
       /\ isSending u'.1 = false.
Proof.
  intros Hlive Hf.
  destruct (handleSend_live baseUrl r cc err now href agent w Hlive)
    as [[script w1] E].
  exists script, w1. split; [exact E|].
  destruct (handleSend_script _ _ _ _ _ _ _ _ _ _ E) as (_ & _ & Hs).
  rewrite Hs, Hf. unfold sent.
  assert (Hev : forall x : DebugSession,
             length (sessions r) = 50%nat ->
             ConsoleCapture.lastn 50 (sessions r ++ [x])
             = tail (sessions r) ++ [x]).
  { intros x H50. unfold ConsoleCapture.lastn. rewrite length_app, H50.
    simpl. destruct (sessions r); [discriminate|]. simpl.
    now rewrite drop_0. }
  assert (Hfields :
            status_of (newSession r now response) = pending
            /\ timestamp (newSession r now response) = now
            /\ s_comment (newSession r now response) =
                 (if String.eqb (comment r) "" then "No comment"
                  else comment r)
            /\ reportId (newSession r now response)
               = response ≫= APIClient.reportId
            /\ s_sessionId (newSession r now response)
               = response ≫= APIClient.sessionId)
    by (repeat split).
  revert Hev Hfields. generalize (newSession r now response) as added.
  intros added Hev (H1 & H2 & H3 & H4 & H5).
  assert (Hp : forall l : list DebugSession,
             let acts :=
               ([SetSessions l] ++ saveSessions l ++
                [SetComment ""; SetScreenshot None] ++
                match debugMode r with
                | wait => [SetIsWaitingForResponse true;
                           SetStatus "Waiting for response..."]
                | backlog => [SetStatus "Added to backlog"]
                end) ++ [SetIsSending false] in
             let u' := perform_in writable acts (s, store) in
             sessions u'.1 = l
             /\ u'.2 = (if writable then Some (slice_last_50 l) else store)
             /\ u'.1 = (perform acts (s, store)).1
             /\ comment u'.1 = "" /\ screenshot u'.1 = None
             /\ isSending u'.1 = false).
  { intros l. unfold saveSessions.
    generalize (slice_last_50 l) as saved. intros saved.
    destruct writable; destruct (debugMode r); cbv; repeat split. }
  destruct (Hp (sessions r ++ [added])) as (P1 & P2 & P3 & P4 & P5 & P6).
  cbv zeta. repeat split; auto.
Qed.

Lemma successful_send_appends_session_witness :
  let cw := ConsoleCapture.new (Some 2) ConsoleCapture.native in
  let f := APIClient.Response true "OK" (APIClient.JsonValue None) in
  is_Some (ConsoleCapture.heap cw.2 !! ConsoleCapture.logs cw.1)
  /\ APIClient.submitDebugReport_settle f = APIClient.Returns None
  /\ exists script w1,
      handleSend "http://localhost:4000" (initial "" backlog []) cw.1 None
        1000 "http://localhost/" "agent" cw.2 = Some (script, w1)
      /\ (perform_in false (settled script f)
            (initial "" backlog [], None)).2 = None.
Proof.
  intros cw f.
  assert (Hlive : is_Some (ConsoleCapture.heap cw.2 !! ConsoleCapture.logs cw.1))
    by (exists []; reflexivity).
  split; [exact Hlive|]. split; [reflexivity|].
  destruct (successful_send_appends_session false "http://localhost:4000"
              (initial "" backlog []) cw.1 None 1000 "http://localhost/"
              "agent" cw.2 f None (initial "" backlog []) None Hlive eq_refl)
    as (script & w1 & E & H).
  exists script, w1. split; [exact E|].
  cbv zeta in H. destruct H as (_ & Hst & _). exact Hst.
Defined.

(** The send button is disabled from the click until the request has
    settled.  After a failure it is enabled again; after a success in
    backlog mode it is as it was before the click; after a success in
    wait mode it stays disabled, until questions arrive. *)
Theorem send_button_lifecycle (baseUrl : string) (r : State)
    (cc : ConsoleCapture.Instance) (err : option ErrorInfo) (now : Z)
    (href agent : string) (w : ConsoleCapture.World) :
  is_Some (ConsoleCapture.heap w !! ConsoleCapture.logs cc) ->
  exists script w1,
    handleSend baseUrl r cc err now href agent w = Some (script, w1)
    /\ forall (s : State) (store : Storage) (f : APIClient.Fetched),
         let u1 := perform (at_once script) (s, store) in
         let u2 := perform (settled script f) u1 in
         send_disabled u1.1 = true
         /\ send_disabled u2.1 =
              match APIClient.submitDebugReport_settle f with
              | APIClient.Throws _ => false
              | APIClient.Returns _ =>
                  match debugMode r with
                  | wait => true
                  | backlog => isWaitingForResponse s
                  end
              end
         /\ forall sid qs,
              send_disabled (perform (onQuestions sid qs) u2).1 = false.
Proof.
  intros Hlive.
  destruct (handleSend_live baseUrl r cc err now href agent w Hlive)
    as [[script w1] E].
  exists script, w1. split; [exact E|].
  destruct (handleSend_script _ _ _ _ _ _ _ _ _ _ E) as (Ha & _ & Hs).
  intros s store f. rewrite Ha, Hs.
  destruct (APIClient.submitDebugReport_settle f) as [response|e].
  - unfold sent, saveSessions.
    generalize (slice_last_50 (sessions r ++ [newSession r now response])).
    generalize (sessions r ++ [newSession r now response]).
    intros l saved. destruct (debugMode r); cbv; repeat split.
  - cbv. repeat split.
Qed.

Lemma send_button_lifecycle_witness :
  let cw := ConsoleCapture.new (Some 2) ConsoleCapture.native in
  is_Some (ConsoleCapture.heap cw.2 !! ConsoleCapture.logs cw.1)
  /\ exists script w1,
      handleSend "http://localhost:4000" (initial "" wait []) cw.1 None
        1000 "http://localhost/" "agent" cw.2 = Some (script, w1)
      /\ send_disabled
           (perform (at_once script) (initial "" wait [], None)).1 = true.
Proof.
  intros cw.
  assert (Hlive : is_Some (ConsoleCapture.heap cw.2 !! ConsoleCapture.logs cw.1))
    by (exists []; reflexivity).
  split; [exact Hlive|].
  destruct (send_button_lifecycle "http://localhost:4000"
              (initial "" wait []) cw.1 None 1000 "http://localhost/"
              "agent" cw.2 Hlive)
    as (script & w1 & E & H).
  exists script, w1. split; [exact E|].
  exact (proj1 (H (initial "" wait []) None
                  (APIClient.Rejects {| Js.thrown_name := "TypeError";
                                        Js.thrown_message := "x" |}))).
Defined.

(** Typing into the field of a text question, or choosing one of the
    options of a multiple-choice question, stores that text as the answer
    of the current question and of no other, and moves nothing.  Nothing
    can be entered for an option that the question does not offer, nor
    for a question of type boolean, for which the modal has no control. *)
Theorem answer_goes_to_current_question (s : State) (store : Storage)
    (q : Question) (value : string) :
  in_range s ->
  current s = Some q ->
  match enter s value with
  | Some acts =>
      let u' := perform acts (s, store) in
      shown_answer u'.1 q = value
      /\ (forall k, k <> q_id q -> get k (answers u'.1) = get k (answers s))
      /\ currentStep u'.1 = currentStep s
      /\ questions u'.1 = questions s
  | None =>
      q_type q = boolean
      \/ (q_type q = multipleChoice
          /\ existsb (String.eqb value) (default [] (q_options q)) = false)
  end.
Proof.
  intros [Hlo Hhi] Hq. unfold enter, onInput, onChange. rewrite Hq. simpl.
  destruct (Z.ltb_spec 0 (Z.of_nat (length (questions s)))); [|lia].
  destruct (Z.ltb_spec (currentStep s) (Z.of_nat (length (questions s))));
    [|lia].
  simpl.
  assert (Hset : forall acts,
             acts = [SetAnswers (set (q_id q) value (answers s))] ->
             let u' := perform acts (s, store) in
             shown_answer u'.1 q = value
             /\ (forall k, k <> q_id q ->
                           get k (answers u'.1) = get k (answers s))
             /\ currentStep u'.1 = currentStep s
             /\ questions u'.1 = questions s).
  { intros acts ->. simpl. unfold shown_answer. simpl.
    destruct (answer_set_then_get (q_id q) (q_id q) value (answers s))
      as (-> & _). rewrite String.eqb_refl.
    repeat split. intros k Hk.
    destruct (answer_set_then_get (q_id q) k value (answers s)) as (-> & _).
    destruct (String.eqb_spec (q_id q) k); [congruence|reflexivity]. }
  destruct (q_type q).
  - now apply Hset.
  - destruct (existsb (String.eqb value) (default [] (q_options q))) eqn:Ex.
    + now apply Hset.
    + right. auto.
  - left. reflexivity.
Qed.

Lemma answer_goes_to_current_question_witness :
  let q := {| q_id := "q1"; q_text := "Which?"; q_type := boolean;
              q_options := None; q_required := true |} in
  let s := {| isOpen := true; showSettings := false; comment := "";
              screenshot := None; isCapturing := false; isSending := false;
              status := ""; projectPath := ""; debugMode := wait;
              isWaitingForResponse := false; sessions := [];
              questions := [q]; sessionId := Some "s1"; answers := [];
              currentStep := 0 |} in
  in_range s /\ current s = Some q
  /\ (q_type q = boolean
      \/ (q_type q = multipleChoice
          /\ existsb (String.eqb "yes") (default [] (q_options q)) = false)).
Proof.
  intros q s.
  assert (H : in_range s) by (split; cbv; [discriminate | reflexivity]).
  split; [exact H|]. split; [reflexivity|].
  exact (answer_goes_to_current_question s None q "yes" H eq_refl).
Defined.

End Handlers.

(** ** Configuration *)

Section Configuration.
Import Config.

(** The widget is rendered exactly when the host enables it, or says
    nothing about it outside production; a host without a configuration
    object gets the defaults. *)
Theorem rendered_iff_enabled (production : bool) (host : option Partial) :
  (is_Some (init production host) <->
   match p_enabled (default empty host) with
   | Given b => b = true
   | Undefined => False
   | Missing => production = false
   end)
  /\ init false None = Some (DEFAULT_CONFIG false)
  /\ init true None = None
  /\ (forall config, init production host = Some config ->
                     config = loadConfig production host).
Proof.
  split; [|split; [reflexivity|split; [reflexivity|]]].
  - unfold init, loadConfig. simpl.
    destruct (p_enabled (default empty host)) as [| |[]]; simpl;
      try destruct production; simpl; split;
      intros H; try reflexivity; try discriminate; try contradiction;
      try (destruct H; discriminate); eauto.
  - intros config. unfold init.
    destruct (enabled (loadConfig production host)) as [[]|];
      congruence.
Qed.

(** The capture of the widget keeps the number of entries the host
    configured, and the last 1000 when the host left the key out or set
    it to [undefined]. *)
Theorem configured_limit_applies (production : bool) (host : option Partial)
    (h : ConsoleCapture.Slots ConsoleCapture.HostFn)
    (cs : list ConsoleCapture.Call) :
  ConsoleCapture.snapshot_after
    (maxLogEntries (loadConfig production host)) h cs
  = Some (ConsoleCapture.lastn
            match p_maxLogEntries (default empty host) with
            | Given n => n
            | _ => 1000
            end
            (map ConsoleCapture.entry_of cs))
  /\ capture_of (loadConfig production host) h
     = ConsoleCapture.new
         (match p_maxLogEntries (default empty host) with
          | Given n => Some n
          | Undefined => None
          | Missing => Some 1000
          end) h.
Proof.
  unfold capture_of, loadConfig. simpl. rewrite snapshot_after_lastn.
  destruct (p_maxLogEntries (default empty host)); simpl; auto.
Qed.

End Configuration.

(** ** What a report of a widget that has rendered again carries *)

Section Renders.
Import ConsoleCapture Render.

Lemma construct_page (arg : option Z) (h : Slots HostFn) :
  construct arg (page h) = new arg h.
Proof. now destruct h. Qed.

Lemma again_spec (arg : option Z) (cc1 : Instance)
    (batches : list (list Call)) :
  forall (cc : Instance) (w : World) (before : list LogEntry),
    wrapped w ->
    heap w !! logs cc1 = Some (lastn (maxEntries cc1) before) ->
    heap w !! logs cc = Some [] ->
    logs cc <> logs cc1 ->
    (logs cc1 < next_loc w)%nat ->
    exists cc' w',
      again arg cc1 batches cc w = Some (cc', w')
      /\ wrapped w'
      /\ heap w' !! logs cc1
         = Some (lastn (maxEntries cc1)
                   (before ++ map entry_of (concat batches)))
      /\ heap w' !! logs cc' = Some []
      /\ logs cc' <> logs cc1
      /\ (logs cc1 < next_loc w')%nat.
Proof.
  induction batches as [|cs rest IH]; intros cc w before Hw Hx Hc Hne Hlt.
  - exists cc, w. simpl. rewrite app_nil_r. repeat split; assumption.
  - cbn [again concat].
    destruct (calls_wrapped cc1 cs w before Hw Hx)
      as (w1 & -> & Hw1 & Hh1 & Hn1 & _). cbn [mbind option_bind].
    unfold construct, alloc.
    assert (Hne1 : next_loc w1 <> logs cc1) by lia.
    match goal with
    | |- context [again arg cc1 rest ?c ?w2] =>
        destruct (IH c w2 (before ++ map entry_of cs))
          as (cc' & w' & E & Hw' & Hh' & Hc' & Hne' & Hlt')
    end.
    + exact Hw1.
    + simpl. rewrite lookup_insert_ne by exact Hne1. exact Hh1.
    + simpl. apply lookup_insert_eq.
    + exact Hne1.
    + simpl. lia.
    + exists cc', w'. split; [exact E|].
      rewrite map_app, app_assoc. auto.
Qed.

Lemma rerendered_spec (arg : option Z) (h : Slots HostFn)
    (cs : list Call) (batches : list (list Call)) (cs' : list Call) :
  exists c,
    rerendered arg h cs batches cs' = Some c
    /\ read (logs (started c)) (world c)
       = Some (lastn (match arg with Some n => n | None => 1000 end)
                 (map entry_of (cs ++ concat batches ++ cs')))
    /\ heap (world c) !! logs (latest c) = Some []
    /\ logs (latest c) <> logs (started c).
Proof.
  unfold rerendered. rewrite construct_page.
  destruct (new_spec arg h)
    as (cc1 & w1 & -> & Hl & Hm & _ & Hh & Hn & _).
  destruct (calls_wrapped cc1 cs (start w1) [] (start_wrapped w1))
    as (w2 & -> & Hw2 & Hh2 & Hn2 & _).
  { simpl. rewrite Hh. unfold lastn. now destruct (Z.to_nat _). }
  simpl in Hh2, Hn2. cbn [mbind option_bind].
  unfold construct, alloc.
  assert (Hne : next_loc w2 <> logs cc1) by (rewrite Hn2, Hn, Hl; lia).
  match goal with
  | |- context [again arg cc1 batches ?c ?w3] =>
      destruct (again_spec arg cc1 batches c w3 (map entry_of cs))
        as (cc & w4 & -> & Hw4 & Hh4 & Hc4 & Hne4 & _)
  end.
  { exact Hw2. }
  { simpl. rewrite lookup_insert_ne by exact Hne. exact Hh2. }
  { simpl. apply lookup_insert_eq. }
  { exact Hne. }
  { simpl. rewrite Hn2, Hn, Hl. lia. }
  cbn [mbind option_bind].
  destruct (calls_wrapped cc1 cs' w4 _ Hw4 Hh4)
    as (w5 & -> & _ & Hh5 & _ & Hfr & _).
  eexists. split; [reflexivity|]. simpl. split; [|split].
  - unfold read. rewrite Hh5, Hm, !map_app, <- app_assoc. reflexivity.
  - rewrite (Hfr _ Hne4). exact Hc4.
  - exact Hne4.
Qed.

(** C4. A widget is mounted, the page makes console calls, the widget
    renders again (as it must before the send button exists), any number
    of times, and the page makes further calls.  The capture that was
    started holds the entries of all these calls, cut to the limit.  The
    send of the latest render reads the capture that this render built,
    which was never started: the report lists no entries at all, not the
    entries the buffer holds.  So with a limit of 2, the one call
    log("a") and one further render, the buffer holds the entry of "a"
    and the report has an empty list of logs. *)
Theorem sent_logs_are_not_the_recorded_entries :
  (forall (arg : option Z) (h : Slots HostFn) (cs : list Call)
          (batches : list (list Call)) (cs' : list Call)
          (baseUrl : string) (r : Widget.State) (e : ErrorCaptures)
          (now : Z) (href agent : string),
      exists c script w body,
        rerendered arg h cs batches cs' = Some c
        /\ read (logs (started c)) (world c)
           = Some (lastn (match arg with Some n => n | None => 1000 end)
                     (map entry_of (cs ++ concat batches ++ cs')))
        /\ send baseUrl r c e now href agent = Some (script, w)
        /\ Widget.requests script
           = [APIClient.PostDebug (baseUrl +:+ "/api/debug") body]
        /\ APIClient.logs body = [])
  /\ (forall (h : Slots HostFn) (t : Z) (baseUrl : string)
             (r : Widget.State) (e : ErrorCaptures) (now : Z)
             (href agent : string),
        exists c script w body,
          rerendered (Some 2) h [console_log "a" t] [] [] = Some c
          /\ read (logs (started c)) (world c)
             = Some [ {| level := log; message := "a"; timestamp := t;
                         stack := None |} ]
          /\ send baseUrl r c e now href agent = Some (script, w)
          /\ Widget.requests script
             = [APIClient.PostDebug (baseUrl +:+ "/api/debug") body]
          /\ APIClient.logs body = []).
Proof.
  assert (G : forall (arg : option Z) (h : Slots HostFn) (cs : list Call)
                (batches : list (list Call)) (cs' : list Call)
                (baseUrl : string) (r : Widget.State) (e : ErrorCaptures)
                (now : Z) (href agent : string),
             exists c script w body,
               rerendered arg h cs batches cs' = Some c
               /\ read (logs (started c)) (world c)
                  = Some (lastn (match arg with Some n => n | None => 1000 end)
                            (map entry_of (cs ++ concat batches ++ cs')))
               /\ send baseUrl r c e now href agent = Some (script, w)
               /\ Widget.requests script
                  = [APIClient.PostDebug (baseUrl +:+ "/api/debug") body]
               /\ APIClient.logs body = []).
  { intros arg h cs batches cs' baseUrl r e now href agent.
    destruct (rerendered_spec arg h cs batches cs')
      as (c & Ec & Hs & Hl & _).
    destruct (handleSend_request baseUrl r (latest c)
                (ErrorCapture.getError (e_latest e)) now href agent
                (world c) [] Hl) as (script & w & E & Hq).
    exists c, script, w. eexists. split; [exact Ec|]. split; [exact Hs|].
    split; [exact E|]. split; [exact Hq|]. reflexivity. }
  split; [exact G|].
  intros h t baseUrl r e now href agent.
  exact (G (Some 2) h [console_log "a" t] [] [] baseUrl r e now href agent).
Qed.

Lemma add_other (i j : nat) (l : list nat) :
  j <> i ->
  existsb (Nat.eqb j) l = false ->
  existsb (Nat.eqb j) (ErrorCapture.add i l) = false.
Proof.
  intros Hne H. unfold ErrorCapture.add.
  destruct (existsb (Nat.eqb i) l); [exact H|].
  rewrite existsb_app, H. simpl.
  destruct (Nat.eqb_spec j i); [contradiction|reflexivity].
Qed.

Lemma dispatches_ident (evs : list ErrorCapture.Event) :
  forall (this : ErrorCapture.Instance) (win : ErrorCapture.Window),
    ErrorCapture.ident
      (ErrorCapture.run (map ErrorCapture.Dispatch evs) (this, win)).1
    = ErrorCapture.ident this.
Proof.
  induction evs as [|e evs IH]; intros this win; [reflexivity|].
  change (ErrorCapture.run (map ErrorCapture.Dispatch (e :: evs)) (this, win))
    with (ErrorCapture.run (map ErrorCapture.Dispatch evs)
            (ErrorCapture.dispatch e this win, win)).
  rewrite IH. unfold ErrorCapture.dispatch.
  now destruct (existsb _ _).
Qed.

(** The error capture over renders.  The capture of the first render is
    started and retains the record of the latest event, before and after
    the widget renders again.  The capture that the later render builds
    has handlers of its own, which are registered nowhere: it retains
    nothing, and the report that this render sends carries no error and
    no log entries.  The comment goes out as typed, and an empty
    screenshot or project path is left out of the body. *)
Theorem rerendered_report_has_no_error (i1 i2 : nat)
    (win : ErrorCapture.Window) (evs rest : list ErrorCapture.Event)
    (ev : ErrorCapture.Event) (arg : option Z) (h : Slots HostFn)
    (cs : list Call) (batches : list (list Call)) (cs' : list Call)
    (baseUrl : string) (r : Widget.State) (now : Z) (href agent : string) :
  i2 <> i1 ->
  existsb (Nat.eqb i2) (ErrorCapture.error_listeners win) = false ->
  existsb (Nat.eqb i2) (ErrorCapture.rejection_listeners win) = false ->
  let e := rerendered_errors i1 i2 win evs (rest ++ [ev]) in
  ErrorCapture.getError (e_started e) = Some (ErrorCapture.info_of ev)
  /\ ErrorCapture.getError (e_started (rerendered_errors i1 i2 win
                                        (rest ++ [ev]) []))
     = Some (ErrorCapture.info_of ev)
  /\ ErrorCapture.getError (e_latest e) = None
  /\ exists c script w body,
       rerendered arg h cs batches cs' = Some c
       /\ send baseUrl r c e now href agent = Some (script, w)
       /\ Widget.requests script
          = [APIClient.PostDebug (baseUrl +:+ "/api/debug") body]
       /\ APIClient.error body = None
       /\ APIClient.logs body = []
       /\ APIClient.comment body = Widget.comment r
       /\ (Widget.screenshot r = Some "" -> APIClient.screenshot body = None)
       /\ (Widget.projectPath r = ""
           -> APIClient.projectPath body = None).
Proof.
  intros Hne He Hr e.
  assert (Hs : forall evs1 this,
             ErrorCapture.ident this = i1 ->
             ErrorCapture.getError
               (ErrorCapture.run
                  (map ErrorCapture.Dispatch (evs1 ++ [ev]))
                  (this, ErrorCapture.start (ErrorCapture.new i1) win)).1
             = Some (ErrorCapture.info_of ev)).
  { intros evs1 this Hi.
    rewrite dispatches_registered; [reflexivity| |];
      rewrite Hi; simpl; apply add_registered. }
  assert (Hl : ErrorCapture.getError (e_latest e) = None).
  { unfold e, rerendered_errors. simpl e_latest.
    rewrite dispatches_unregistered; [reflexivity| |]; simpl;
      now apply add_other. }
  split; [|split; [|split; [exact Hl|]]].
  - unfold e, rerendered_errors. simpl e_started.
    apply Hs. apply dispatches_ident.
  - unfold rerendered_errors. simpl e_started.
    change (ErrorCapture.run (map ErrorCapture.Dispatch []) ?st) with st.
    apply Hs. reflexivity.
  - destruct (rerendered_spec arg h cs batches cs')
      as (c & Ec & _ & Hh & _).
    destruct (handleSend_request baseUrl r (latest c)
                (ErrorCapture.getError (e_latest e)) now href agent
                (world c) [] Hh) as (script & w & E & Hq).
    exists c, script, w. eexists. split; [exact Ec|]. split; [exact E|].
    split; [exact Hq|]. simpl. split; [exact Hl|].
    split; [reflexivity|]. split; [reflexivity|]. split.
    + intros ->. reflexivity.
    + intros ->. reflexivity.
Qed.

Lemma rerendered_report_has_no_error_witness :
  let win := {| ErrorCapture.error_listeners := [];
                ErrorCapture.rejection_listeners := [] |} in
  let ev := ErrorCapture.OnRejection (ErrorCapture.Nullish "undefined") in
  let e := rerendered_errors 0 1 win [] ([] ++ [ev]) in
  1%nat <> 0%nat
  /\ existsb (Nat.eqb 1) (ErrorCapture.error_listeners win) = false
  /\ existsb (Nat.eqb 1) (ErrorCapture.rejection_listeners win) = false
  /\ ErrorCapture.getError (e_started e) = Some (ErrorCapture.info_of ev)
  /\ ErrorCapture.getError (e_latest e) = None.
Proof.
  intros win ev e.
  assert (Hne : 1%nat <> 0%nat) by discriminate.
  assert (He : existsb (Nat.eqb 1) (ErrorCapture.error_listeners win) = false)
    by reflexivity.
  assert (Hr : existsb (Nat.eqb 1) (ErrorCapture.rejection_listeners win)
               = false) by reflexivity.
  split; [exact Hne|]. split; [exact He|]. split; [exact Hr|].
  destruct (rerendered_report_has_no_error 0 1 win [] [] ev (Some 2) native
              [] [] [] "http://localhost:4000"
              (Widget.initial "" Types.wait []) 1000 "http://localhost/"
              "agent" Hne He Hr) as (H1 & _ & H2 & _).
  split; [exact H1 | exact H2].
Defined.

End Renders.
